(** * cohort_data2: queries over a pipe-delimited student roster

    A shallow embedding of [further_study/cohort_data2.py].  The module reads
    a text file with one person per line,

      first_name|last_name|house|adviser|cohort

    and answers a handful of read-only queries over it.

    Modelling choices.
    - Python [str] is [string]; a character is a code point below 256.
    - A Python tuple of strings is a [list string]; the tuples built by
      [all_data] have one element fewer than the line has fields, so their
      length is not fixed by the type, exactly as in the source.
    - A Python [set] of strings is a [gset string].
    - Exceptions are explicit: every function returns a [result].  Tuple
      unpacking ([first, last, *rest = t]) raises [ValueError] when the
      tuple has the wrong number of elements.
    - A name that the module never binds raises [NameError] where it is
      looked up.
    - The file system is a partial map from the paths of the files that open
      to their text, which is taken to decode; no path that holds a NUL
      character is among them.  [open] on any other path raises [OSError],
      or [ValueError] when the path holds a NUL character. *)

From Stdlib Require Import Ascii.
From stdpp Require Import base gmap sets list strings sorting.

(** ** Python values, exceptions and builtins *)

Module Py.

Inductive exn : Set :=
  | OSError
  | ValueError
  | NameError.

Inductive result (A : Type) : Type :=
  | Ok (a : A)
  | Raise (e : exn).
Global Arguments Ok {A} a.
Global Arguments Raise {A} e.

Global Instance result_ret : MRet result := λ A a, Ok a.
Global Instance result_bind : MBind result := λ A B k m,
  match m with
  | Ok a => k a
  | Raise e => Raise e
  end.

(** A tuple of strings, of any length. *)
Definition tuple : Type := list string.

(** [a, b, *rest = t]: at least two elements are required. *)
Definition unpack_2_star (t : tuple) : result (string * string * list string) :=
  match t with
  | a :: b :: rest => Ok (a, b, rest)
  | _ => Raise ValueError
  end.

(** [a, b, c, d = t]: exactly four elements are required. *)
Definition unpack_4 (t : tuple) : result (string * string * string * string) :=
  match t with
  | [a; b; c; d] => Ok (a, b, c, d)
  | _ => Raise ValueError
  end.

(** [for x in l: s = body(s, x)], where the body may raise. *)
Fixpoint for_each {A S : Type} (body : S → A → result S) (s : S) (l : list A)
    : result S :=
  match l with
  | [] => Ok s
  | x :: l' => s' ← body s x; for_each body s' l'
  end.

(** [str.isspace] on one code point below 256: TAB, LF, VT, FF, CR, the
    four separators FS..US, SPACE, NEL and NBSP. *)
Definition isspace (c : ascii) : bool :=
  let n := N_of_ascii c in
  ((9 <=? n) && (n <=? 13) || (28 <=? n) && (n <=? 32)
   || (n =? 133) || (n =? 160))%N.

(** [s.rstrip()]: drop the longest run of whitespace at the end. *)
Fixpoint rstrip (s : string) : string :=
  match s with
  | EmptyString => EmptyString
  | String c s' =>
      match rstrip s' with
      | EmptyString => if isspace c then EmptyString else String c EmptyString
      | t => String c t
      end
  end.

(** [s.split(sep)] for a one-character separator: every occurrence of
    [sep] ends a field; the result is never empty. *)
Fixpoint split (sep : ascii) (s : string) : list string :=
  match s with
  | EmptyString => [EmptyString]
  | String c s' =>
      if Ascii.eqb c sep then EmptyString :: split sep s'
      else match split sep s' with
           | f :: fs => String c f :: fs
           | [] => [String c EmptyString]
           end
  end.

(** [sep.join(l)]. *)
Fixpoint join (sep : string) (l : list string) : string :=
  match l with
  | [] => EmptyString
  | [x] => x
  | x :: l' => x +:+ sep +:+ join sep l'
  end.

Definition NUL : ascii := "000"%char.
Definition LF : ascii := "010"%char.
Definition CR : ascii := "013"%char.

(** What [open(path)] raises when there is no file to read at [path]: the
    path is checked for an embedded NUL before the file system is asked. *)
Definition open_error (path : string) : exn :=
  if decide (NUL ∈ String.list_ascii_of_string path) then ValueError
  else OSError.

(** Text mode with the default [newline=None]: CR LF and a lone CR are
    both read as LF. *)
Fixpoint universal_newlines (s : string) : string :=
  match s with
  | EmptyString => EmptyString
  | String c s' =>
      if Ascii.eqb c CR then
        match s' with
        | String c' s'' =>
            if Ascii.eqb c' LF then String LF (universal_newlines s'')
            else String LF (universal_newlines s')
        | EmptyString => String LF EmptyString
        end
      else String c (universal_newlines s')
  end.

(** Iterating over text: each line keeps its terminating LF; a last line
    without LF is yielded too, an empty rest is not. *)
Fixpoint iter_lines (s : string) : list string :=
  match s with
  | EmptyString => []
  | String c s' =>
      if Ascii.eqb c LF then String c EmptyString :: iter_lines s'
      else match iter_lines s' with
           | [] => [String c EmptyString]
           | l :: ls => String c l :: ls
           end
  end.

(** [sorted(l)] on strings: ascending in the code-point order. *)
Definition sorted (l : list string) : list string := merge_sort String.le l.

End Py.

Import Py.

(** ** The module under study *)

Section cohort_data2.

(** The files that exist, with their decoded text. *)
Variable fs : string → option string.

(** [with open(filename) as cohort_data], then [for line in cohort_data]. *)
Definition open_lines (filename : string) : result (list string) :=
  match fs filename with
  | Some text => Ok (iter_lines (universal_newlines text))
  | None => Raise (open_error filename)
  end.

(** [tuple(line.rstrip().split("|"))]. *)
Definition parse_line (line : string) : tuple := split "|" (rstrip line).

Definition all_data (filename : string) : result (list tuple) :=
  cohort_data ← open_lines filename;
  let data := parse_line <$> cohort_data in
  mapM (λ t, '(first, last, rest) ← unpack_2_star t;
             mret ((first +:+ " " +:+ last) :: rest)) data.

Definition all_houses (filename : string) : result (gset string) :=
  records ← all_data filename;
  rows ← mapM unpack_2_star records;
  mret (list_to_set ((λ row, row.1.2) <$> filter (λ row, row.1.2 ≠ "") rows)).

(** [(fullname, cohort_name)] for everybody who is neither instructor nor
    ghost. *)
Definition student_data (rows : list (string * string * string * string))
    : list (string * string) :=
  (λ row, (row.1.1.1, row.2)) <$> filter (λ row, row.2 ∉ ["I"; "G"]) rows.

(** [cohort = None] is a call that leaves the argument out. *)
Definition students_by_cohort (filename : string) (cohort : option string)
    : result (list string) :=
  let cohort := default "All" cohort in
  records ← all_data filename;
  rows ← mapM unpack_4 records;
  let student_data := student_data rows in
  if decide (cohort = "All") then
    mret (sorted (student_data.*1))
  else
    mret (sorted ((filter (λ sd, sd.2 = cohort) student_data).*1)).

(** The seven lists that [all_names_by_house] fills. *)
Record rosters : Type := Rosters {
  dumbledores_army : list string;
  gryffindor : list string;
  hufflepuff : list string;
  ravenclaw : list string;
  slytherin : list string;
  ghosts : list string;
  instructors : list string
}.

Definition all_names_by_house_body (st : rosters) (record : tuple)
    : result rosters :=
  '(fullname, house, _, cohort_name) ← unpack_4 record;
  let '(Rosters da gr hu ra sl gh ins) := st in
  let '(gh, ins) :=
    if decide (house = "") then
      if decide (cohort_name = "G") then (gh ++ [fullname], ins)
      else if decide (cohort_name = "I") then (gh, ins ++ [fullname])
      else (gh, ins)
    else (gh, ins) in
  mret (
    if decide (house = "Dumbledore's Army") then
      Rosters (da ++ [fullname]) gr hu ra sl gh ins
    else if decide (house = "Gryffindor") then
      Rosters da (gr ++ [fullname]) hu ra sl gh ins
    else if decide (house = "Hufflepuff") then
      Rosters da gr (hu ++ [fullname]) ra sl gh ins
    else if decide (house = "Ravenclaw") then
      Rosters da gr hu (ra ++ [fullname]) sl gh ins
    else if decide (house = "Slytherin") then
      Rosters da gr hu ra (sl ++ [fullname]) gh ins
    else Rosters da gr hu ra sl gh ins).

Definition all_names_by_house (filename : string) : result (list (list string)) :=
  records ← all_data filename;
  st ← for_each all_names_by_house_body (Rosters [] [] [] [] [] [] []) records;
  mret [ sorted (dumbledores_army st);
         sorted (gryffindor st);
         sorted (hufflepuff st);
         sorted (ravenclaw st);
         sorted (slytherin st);
         sorted (ghosts st);
         sorted (instructors st) ].

(** The loop of [get_cohort_for]: unpack, compare, return at the first
    match; falling off the end returns [None]. *)
Fixpoint get_cohort_for_loop (name : string) (records : list tuple)
    : result (option string) :=
  match records with
  | [] => mret None
  | record :: records' =>
      '(full_name, _, _, cohort_name) ← unpack_4 record;
      if decide (full_name = name) then mret (Some cohort_name)
      else get_cohort_for_loop name records'
  end.

Definition get_cohort_for (filename name : string) : result (option string) :=
  records ← all_data filename;
  get_cohort_for_loop name records.

(** [read_cohort_data] is called by [find_duped_last_names], but the module
    neither defines nor imports the name: looking it up raises [NameError],
    whatever the argument, and before any file is opened. *)
Definition read_cohort_data (filename : string) : result (list tuple) :=
  Raise NameError.

(** State of the loop of [find_duped_last_names]: [(dupes, seen_names)]. *)
Definition find_duped_last_names_body (st : gset string * gset string)
    (t : tuple) : result (gset string * gset string) :=
  '(first, last, _) ← unpack_2_star t;
  let '(dupes, seen_names) := st in
  let dupes := if decide (last ∈ seen_names) then dupes ∪ {[last]} else dupes in
  mret (dupes, seen_names ∪ {[last]}).

Definition find_duped_last_names (filename : string) : result (gset string) :=
  data ← read_cohort_data filename;
  st ← for_each find_duped_last_names_body (∅, ∅) data;
  mret st.1.

Fixpoint get_house_for_loop (name : string) (records : list tuple)
    : result (option string) :=
  match records with
  | [] => mret None
  | record :: records' =>
      '(fullname, house, _) ← unpack_2_star record;
      if decide (fullname = name) then mret (Some house)
      else get_house_for_loop name records'
  end.

Definition get_house_for (filename name : string) : result (option string) :=
  records ← all_data filename;
  get_house_for_loop name records.

(** A string never equals [None], so [house == target_house] reads
    [Some house = target_house]. *)
Definition get_housemates_for (filename name : string) : result (gset string) :=
  target_cohort ← get_cohort_for filename name;
  target_house ← get_house_for filename name;
  records ← all_data filename;
  rows ← mapM unpack_4 records;
  mret (list_to_set
          ((λ row, row.1.1.1) <$>
           filter (λ row, row.1.1.1 ≠ name
                          ∧ Some row.1.1.2 = target_house
                          ∧ Some row.2 = target_cohort) rows)).

End cohort_data2.

(** ** The roster as the spec's data model *)

(** A record of the data model: [(full_name, house, adviser, cohort)]. *)
Record person : Type := Person {
  full_name : string;
  house : string;
  adviser : string;
  cohort : string
}.

Global Instance person_eq_dec : EqDecision person.
Proof. solve_decision. Defined.

Definition to_tuple (p : person) : tuple :=
  [full_name p; house p; adviser p; cohort p].

Definition to_row (p : person) : string * string * string * string :=
  (full_name p, house p, adviser p, cohort p).

(** [filename] is a roster file: it exists and every line of it has the five
    fields [first|last|house|adviser|cohort], so that [all_data] yields one
    four-element tuple per person. *)
Definition roster_file (fs : string → option string) (filename : string)
    (people : list person) : Prop :=
  all_data fs filename = Ok (to_tuple <$> people).

(** The five house names that [all_names_by_house] knows. *)
Definition canonical_houses : list string :=
  ["Dumbledore's Army"; "Gryffindor"; "Hufflepuff"; "Ravenclaw"; "Slytherin"].

(** A record that uses only the canonical house names and the sentinels. *)
Definition canonical (p : person) : Prop :=
  house p ∈ canonical_houses ∨ (house p = "" ∧ cohort p ∈ ["G"; "I"]).

(** Spec wording of [rstrip]: [s] is [line] without its trailing
    whitespace. *)
Definition all_space (s : string) : Prop :=
  Forall (λ c, isspace c = true) (String.list_ascii_of_string s).

Fixpoint last_char (s : string) : option ascii :=
  match s with
  | EmptyString => None
  | String c EmptyString => Some c
  | String _ s' => last_char s'
  end.

Definition stripped_of (line s : string) : Prop :=
  (∃ ws, line = s +:+ ws ∧ all_space ws)
  ∧ ∀ c, last_char s = Some c → isspace c = false.

(** Spec wording of [split]: the fields are the pieces between the
    separators. *)
Definition fields_of (sep : ascii) (s : string) (fields : list string) : Prop :=
  join (String sep "") fields = s
  ∧ fields ≠ []
  ∧ Forall (λ f, sep ∉ String.list_ascii_of_string f) fields.

(** The names of the people that satisfy [P], in file order. *)
Definition bucket (P : person → Prop) `{!∀ p, Decision (P p)}
    (l : list person) : list string :=
  full_name <$> filter P l.

(** The number of tuples whose second element is [x]. *)
Definition second_count (data : list tuple) (x : string) : nat :=
  length (filter (λ t, t !! 1 = Some x) data).

(** What [all_data] makes of a parsed line that has two fields or more. *)
Definition merge_names (t : tuple) : tuple :=
  match t with
  | first :: last :: rest => (first +:+ " " +:+ last) :: rest
  | _ => []
  end.

(** The lines that iterating over an open file yields. *)
Definition file_lines (text : string) : list string :=
  iter_lines (universal_newlines text).

(** [t], at position [i], is the first person in file order called [name]. *)
Definition first_match (people : list person) (name : string) (i : nat)
    (t : person) : Prop :=
  people !! i = Some t
  ∧ full_name t = name
  ∧ ∀ j q, people !! j = Some q → j < i → full_name q ≠ name.

(** ** Sample files *)

Definition hogwarts : string :=
"Harry|Potter|Gryffindor|McGonagall|Fall 2015
Ron|Weasley|Gryffindor|McGonagall|Fall 2015
Fred|Weasley|Gryffindor|McGonagall|Winter 2016
Cho|Chang|Ravenclaw|Flitwick|Fall 2015
Moaning|Myrtle|||G
Fat|Friar|||G
Severus|Snape|||I
".

Definition hogwarts_people : list person :=
  [ Person "Harry Potter" "Gryffindor" "McGonagall" "Fall 2015";
    Person "Ron Weasley" "Gryffindor" "McGonagall" "Fall 2015";
    Person "Fred Weasley" "Gryffindor" "McGonagall" "Winter 2016";
    Person "Cho Chang" "Ravenclaw" "Flitwick" "Fall 2015";
    Person "Moaning Myrtle" "" "" "G";
    Person "Fat Friar" "" "" "G";
    Person "Severus Snape" "" "" "I" ].

(** A file system that holds [text] at the path [cohort_data.txt] only. *)
Definition disk (text : string) : string → option string :=
  λ path, if decide (path = "cohort_data.txt") then Some text else None.

(** A roster in which one student's cohort label is the word "All". *)
Definition all_label : string :=
"Cedric|Diggory|Hufflepuff|Sprout|All
Cho|Chang|Ravenclaw|Flitwick|Fall 2015
".

Definition all_label_people : list person :=
  [ Person "Cedric Diggory" "Hufflepuff" "Sprout" "All";
    Person "Cho Chang" "Ravenclaw" "Flitwick" "Fall 2015" ].

(** A file with a blank second line. *)
Definition blank_line : string :=
"Harry|Potter|Gryffindor|McGonagall|Fall 2015

Ron|Weasley|Gryffindor|McGonagall|Fall 2015
".

Global Instance canonical_dec (p : person) : Decision (canonical p).
Proof. unfold canonical. apply _. Defined.

(** The person that a four-element tuple stands for. *)
Definition of_tuple (t : tuple) : person :=
  match t with
  | [n; h; a; c] => Person n h a c
  | _ => Person "" "" "" ""
  end.

(** A file whose second line stops after the house. *)
Definition ragged : string :=
"Harry|Potter|Gryffindor|McGonagall|Fall 2015
Ron|Weasley|Gryffindor
".

(** A file with three fields on every line. *)
Definition house_only : string :=
"Harry|Potter|Gryffindor
Moaning|Myrtle|
".

(** The file of the two Weasley twins. *)
Definition weasleys : string :=
"Fred|Weasley|Gryffindor|McGonagall|Winter 2016
George|Weasley|Gryffindor|McGonagall|Winter 2016
".

(** ** Facts about the builtins *)

Module PyFacts.

Lemma bind_Ok {A B} (a : A) (k : A → result B) : Ok a ≫= k = k a.
Proof. reflexivity. Qed.

Lemma bind_Raise {A B} (e : exn) (k : A → result B) : Raise e ≫= k = Raise e.
Proof. reflexivity. Qed.

Lemma bind_Ok_inv {A B} (m : result A) (k : A → result B) (b : B) :
  m ≫= k = Ok b → ∃ a, m = Ok a ∧ k a = Ok b.
Proof. destruct m as [a|e]; simpl; [eauto | discriminate]. Qed.

Lemma mapM_nil {A B} (f : A → result B) : mapM f [] = Ok [].
Proof. reflexivity. Qed.

Lemma mapM_cons {A B} (f : A → result B) x l :
  mapM f (x :: l) = y ← f x; k ← mapM f l; mret (y :: k).
Proof. reflexivity. Qed.

Lemma mapM_Ok_fmap {A B} (f : A → result B) (g : A → B) l :
  Forall (λ x, f x = Ok (g x)) l → mapM f l = Ok (g <$> l).
Proof.
  induction 1 as [|x l Hx _ IH]; [done|].
  by rewrite mapM_cons, Hx, bind_Ok, IH.
Qed.

Lemma mapM_Ok_Forall2 {A B} (f : A → result B) l k :
  mapM f l = Ok k → Forall2 (λ x y, f x = Ok y) l k.
Proof.
  revert k. induction l as [|x l IH]; intros k.
  - intros [= <-]. constructor.
  - rewrite mapM_cons. intros (y & Hy & H)%bind_Ok_inv.
    apply bind_Ok_inv in H as (k' & Hk' & [= <-]).
    constructor; auto.
Qed.

Lemma mapM_Raise {A B} (f : A → result B) e l :
  Forall (λ x, ∀ e', f x = Raise e' → e' = e) l →
  Exists (λ x, ∃ e', f x = Raise e') l →
  mapM f l = Raise e.
Proof.
  induction 1 as [|x l Hx Hl IH]; intros Hex.
  - by apply Exists_nil in Hex.
  - rewrite mapM_cons. destruct (f x) as [y|e'] eqn:Hfx.
    + rewrite bind_Ok. apply Exists_cons in Hex as [[e' He']|Hex]; [congruence|].
      by rewrite (IH Hex).
    + by rewrite (Hx e' eq_refl).
Qed.

Lemma for_each_Raise {A S} (body : S → A → result S) e s l :
  Forall (λ x, ∀ s' e', body s' x = Raise e' → e' = e) l →
  Exists (λ x, ∀ s', ∃ e', body s' x = Raise e') l →
  for_each body s l = Raise e.
Proof.
  intros Hall. revert s. induction Hall as [|x l Hx Hl IH]; intros s Hex.
  - by apply Exists_nil in Hex.
  - simpl. destruct (body s x) as [s'|e'] eqn:Hb.
    + rewrite bind_Ok. apply Exists_cons in Hex as [Hex|Hex]; [|by apply IH].
      destruct (Hex s) as [e' He']. congruence.
    + by rewrite (Hx s e' Hb).
Qed.

Lemma unpack_2_star_Ok t :
  2 ≤ length t → ∃ a b rest, t = a :: b :: rest ∧ unpack_2_star t = Ok (a, b, rest).
Proof. destruct t as [|a [|b rest]]; simpl; [lia..|eauto]. Qed.

Lemma unpack_2_star_Raise t : length t < 2 → unpack_2_star t = Raise ValueError.
Proof. destruct t as [|a [|b rest]]; simpl; [done..|lia]. Qed.

Lemma unpack_2_star_exn t e : unpack_2_star t = Raise e → e = ValueError.
Proof. destruct t as [|a [|b rest]]; simpl; congruence. Qed.

(** *** Strings *)

Lemma str_app_nil_l (s : string) : "" +:+ s = s.
Proof. reflexivity. Qed.

Lemma str_app_cons c (s t : string) : String c s +:+ t = String c (s +:+ t).
Proof. reflexivity. Qed.

Lemma str_app_nil_r (s : string) : s +:+ "" = s.
Proof. induction s as [|c s IH]; [done|]. by rewrite str_app_cons, IH. Qed.

(** *** [rstrip] *)

Lemma rstrip_stripped_of line : stripped_of line (rstrip line).
Proof.
  induction line as [|c line [(ws & Hws & Hsp) Hlast]]; simpl.
  - split; [exists ""; split; [done|constructor] | done].
  - destruct (rstrip line) as [|a t] eqn:Hr.
    + rewrite str_app_nil_l in Hws. subst ws.
      destruct (isspace c) eqn:Hc.
      * split; [|done]. exists (String c line). split; [done|].
        by constructor.
      * split; [by exists line | by intros ? [= <-]].
    + split; [|done]. exists ws. split; [|done].
      by rewrite str_app_cons, <- Hws.
Qed.

Lemma rstrip_all_space s : all_space s → rstrip s = "".
Proof.
  induction s as [|c s IH]; [done|]. unfold all_space; simpl.
  intros [Hc Hs]%Forall_cons. by rewrite (IH Hs), Hc.
Qed.

(** *** [split] *)

Lemma split_not_nil sep s : split sep s ≠ [].
Proof.
  destruct s as [|c s]; simpl; [done|].
  destruct (Ascii.eqb c sep); [done|]. by destruct (split sep s).
Qed.

Lemma split_fields_of sep s : fields_of sep s (split sep s).
Proof.
  split; [|split; [apply split_not_nil|]].
  - induction s as [|c s IH]; [done|]. simpl.
    destruct (Ascii.eqb_spec c sep) as [->|Hne].
    + pose proof (split_not_nil sep s).
      destruct (split sep s) as [|f fs]; [done|].
      change (join (String sep "") ("" :: f :: fs))
        with ("" +:+ String sep "" +:+ join (String sep "") (f :: fs)).
      by rewrite IH.
    + pose proof (split_not_nil sep s).
      destruct (split sep s) as [|f [|g fs]]; [done|..].
      * simpl in *. by subst.
      * change (String c f +:+ String sep "" +:+ join (String sep "") (g :: fs)
                = String c s).
        rewrite str_app_cons. f_equal. exact IH.
  - induction s as [|c s IH]; simpl.
    + repeat constructor. by intros ?%elem_of_nil.
    + destruct (Ascii.eqb_spec c sep) as [->|Hne].
      * constructor; [by intros ?%elem_of_nil | done].
      * destruct (split sep s) as [|f fs]; simpl.
        -- repeat constructor. intros [->|?%elem_of_nil]%elem_of_cons; done.
        -- apply Forall_cons in IH as [Hf Hfs]. constructor; [|done].
           simpl. intros [->|?]%elem_of_cons; done.
Qed.

Lemma split_no_sep sep s :
  sep ∉ String.list_ascii_of_string s → split sep s = [s].
Proof.
  induction s as [|c s IH]; [done|]. simpl. intros Hnin.
  destruct (Ascii.eqb_spec c sep) as [->|Hne].
  - destruct Hnin. by left.
  - rewrite IH; [done|]. intros ?. destruct Hnin. by right.
Qed.

Lemma split_app_sep sep (x t : string) :
  sep ∉ String.list_ascii_of_string x →
  split sep (x +:+ String sep t) = x :: split sep t.
Proof.
  induction x as [|c x IH]; intros Hnin.
  - rewrite str_app_nil_l. simpl. by rewrite Ascii.eqb_refl.
  - rewrite str_app_cons. simpl in *.
    destruct (Ascii.eqb_spec c sep) as [->|Hne].
    + destruct Hnin. by left.
    + rewrite IH; [done|]. intros ?. destruct Hnin. by right.
Qed.

(** The fields of a string are determined by [fields_of]. *)
Lemma fields_of_unique sep s fields :
  fields_of sep s fields → fields = split sep s.
Proof.
  intros (Hjoin & Hne & Hall). subst s.
  induction Hall as [|x l Hx Hl IH]; [done|].
  destruct l as [|y l].
  - simpl. by rewrite split_no_sep.
  - change (join (String sep "") (x :: y :: l))
      with (x +:+ String sep "" +:+ join (String sep "") (y :: l)).
    change (String sep "" +:+ join (String sep "") (y :: l))
      with (String sep (join (String sep "") (y :: l))).
    rewrite split_app_sep by done. f_equal. by apply IH.
Qed.

(** The stripped line is determined by [stripped_of]. *)
Lemma stripped_of_unique line s : stripped_of line s → s = rstrip line.
Proof.
  intros [(ws & -> & Hws) Hlast].
  induction s as [|c s IH].
  - rewrite str_app_nil_l. by rewrite rstrip_all_space.
  - rewrite str_app_cons. simpl rstrip. destruct s as [|d s].
    + rewrite str_app_nil_l, (rstrip_all_space ws Hws).
      by rewrite (Hlast c eq_refl).
    + rewrite <- IH; [done|]. intros c' Hc'. by apply Hlast.
Qed.

(** *** Lines of a text *)

Lemma iter_lines_concat s : foldr String.app "" (iter_lines s) = s.
Proof.
  induction s as [|c s IH]; [done|]. simpl.
  destruct (Ascii.eqb c LF).
  - simpl. by rewrite str_app_cons, str_app_nil_l, IH.
  - destruct (iter_lines s) as [|l ls]; simpl in *.
    + by subst.
    + by rewrite str_app_cons, IH.
Qed.

(** *** [sorted] *)

Lemma sorted_Permutation l : sorted l ≡ₚ l.
Proof. apply merge_sort_Permutation. Qed.

Lemma sorted_Sorted l : Sorted String.le (sorted l).
Proof. apply (Sorted_merge_sort String.le). Qed.

Lemma sorted_length l : length (sorted l) = length l.
Proof. by rewrite sorted_Permutation. Qed.

(** A sorted permutation of [l] is [sorted l]: the order is total and
    antisymmetric, so the result of sorting is determined. *)
Lemma sorted_unique l k : k ≡ₚ l → Sorted String.le k → k = sorted l.
Proof.
  intros Hp Hs. apply (Sorted_unique String.le); [done|apply sorted_Sorted|].
  by rewrite sorted_Permutation.
Qed.

End PyFacts.

Import PyFacts.

(** ** Facts about the queries on a roster file *)

#[local] Set Warnings "-clear-no-such-hyp".

Lemma filter_fmap {A B} (f : A → B) (P : B → Prop) `{!∀ y, Decision (P y)}
    (l : list A) :
  filter P (f <$> l) = f <$> filter (λ x, P (f x)) l.
Proof.
  induction l as [|x l IH]; [done|].
  rewrite fmap_cons, !filter_cons. case_decide; by rewrite IH.
Qed.

Section roster_facts.

Context (fs : string → option string) (filename : string).
Context (people : list person).
Hypothesis Hroster : roster_file fs filename people.

Lemma unpack_4_people :
  mapM unpack_4 (to_tuple <$> people) = Ok (to_row <$> people).
Proof.
  rewrite (mapM_Ok_fmap unpack_4 (λ t, match t with
                                       | [a; b; c; d] => (a, b, c, d)
                                       | _ => ("", "", "", "")
                                       end)).
  - by rewrite <- list_fmap_compose.
  - apply Forall_fmap, Forall_true. by intros [].
Qed.

Lemma unpack_2_star_people :
  mapM unpack_2_star (to_tuple <$> people)
  = Ok ((λ p, (full_name p, house p, [adviser p; cohort p])) <$> people).
Proof.
  rewrite (mapM_Ok_fmap unpack_2_star (λ t, match t with
                                            | a :: b :: rest => (a, b, rest)
                                            | _ => ("", "", [])
                                            end)).
  - by rewrite <- list_fmap_compose.
  - apply Forall_fmap, Forall_true. by intros [].
Qed.

Lemma all_houses_roster :
  all_houses fs filename
  = Ok (list_to_set (house <$> filter (λ p, house p ≠ "") people)).
Proof.
  unfold all_houses. rewrite Hroster, bind_Ok, unpack_2_star_people, bind_Ok.
  by rewrite filter_fmap, <- list_fmap_compose.
Qed.

Lemma student_data_people :
  student_data (to_row <$> people)
  = (λ p, (full_name p, cohort p)) <$> filter (λ p, cohort p ∉ ["I"; "G"]) people.
Proof. unfold student_data. by rewrite filter_fmap, <- list_fmap_compose. Qed.

Lemma students_by_cohort_all c :
  default "All" c = "All" →
  students_by_cohort fs filename c
  = Ok (sorted (full_name <$> filter (λ p, cohort p ∉ ["I"; "G"]) people)).
Proof.
  intros Hc. unfold students_by_cohort.
  rewrite Hroster, bind_Ok, unpack_4_people, bind_Ok, student_data_people, Hc.
  rewrite decide_True by done. by rewrite <- list_fmap_compose.
Qed.

Lemma students_by_cohort_filter c :
  c ≠ "All" →
  students_by_cohort fs filename (Some c)
  = Ok (sorted (full_name <$>
                filter (λ p, cohort p = c ∧ cohort p ∉ ["I"; "G"]) people)).
Proof.
  intros Hc. unfold students_by_cohort.
  rewrite Hroster, bind_Ok, unpack_4_people, bind_Ok, student_data_people.
  simpl default. rewrite decide_False by done.
  by rewrite filter_fmap, list_filter_filter, <- list_fmap_compose.
Qed.


End roster_facts.

(** *** The two lookup loops *)

Lemma get_cohort_for_loop_miss name (l : list person) :
  Forall (λ p, full_name p ≠ name) l →
  get_cohort_for_loop name (to_tuple <$> l) = Ok None.
Proof.
  induction 1 as [|p l Hp _ IH]; [done|]. simpl.
  by rewrite decide_False.
Qed.

Lemma get_house_for_loop_miss name (l : list person) :
  Forall (λ p, full_name p ≠ name) l →
  get_house_for_loop name (to_tuple <$> l) = Ok None.
Proof.
  induction 1 as [|p l Hp _ IH]; [done|]. simpl.
  by rewrite decide_False.
Qed.

Lemma get_cohort_for_loop_first name (l : list person) i t :
  l !! i = Some t → full_name t = name →
  (∀ j q, l !! j = Some q → j < i → full_name q ≠ name) →
  get_cohort_for_loop name (to_tuple <$> l) = Ok (Some (cohort t)).
Proof.
  revert i. induction l as [|p l IH]; intros i Hi Ht Hbefore; [done|].
  simpl. destruct i as [|i]; simplify_eq/=.
  - by rewrite decide_True.
  - rewrite decide_False by (apply (Hbefore 0); [done|lia]).
    apply (IH i); [done..|].
    intros j q Hj Hlt. apply (Hbefore (S j)); [done|lia].
Qed.

Lemma get_house_for_loop_first name (l : list person) i t :
  l !! i = Some t → full_name t = name →
  (∀ j q, l !! j = Some q → j < i → full_name q ≠ name) →
  get_house_for_loop name (to_tuple <$> l) = Ok (Some (house t)).
Proof.
  revert i. induction l as [|p l IH]; intros i Hi Ht Hbefore; [done|].
  simpl. destruct i as [|i]; simplify_eq/=.
  - by rewrite decide_True.
  - rewrite decide_False by (apply (Hbefore 0); [done|lia]).
    apply (IH i); [done..|].
    intros j q Hj Hlt. apply (Hbefore (S j)); [done|lia].
Qed.

(** *** The loop of [all_names_by_house] *)

Lemma bucket_cons (P : person → Prop) `{!∀ p, Decision (P p)} p l :
  bucket P (p :: l)
  = if decide (P p) then full_name p :: bucket P l else bucket P l.
Proof. unfold bucket. rewrite filter_cons. by case_decide. Qed.

Lemma all_names_by_house_loop (l : list person) st :
  for_each all_names_by_house_body st (to_tuple <$> l)
  = Ok (Rosters
          (dumbledores_army st ++ bucket (λ p, house p = "Dumbledore's Army") l)
          (gryffindor st ++ bucket (λ p, house p = "Gryffindor") l)
          (hufflepuff st ++ bucket (λ p, house p = "Hufflepuff") l)
          (ravenclaw st ++ bucket (λ p, house p = "Ravenclaw") l)
          (slytherin st ++ bucket (λ p, house p = "Slytherin") l)
          (ghosts st ++ bucket (λ p, house p = "" ∧ cohort p = "G") l)
          (instructors st ++ bucket (λ p, house p = "" ∧ cohort p = "I") l)).
Proof.
  revert st. induction l as [|[n h a c] l IH]; intros [da gr hu ra sl gh ins].
  - simpl. by rewrite !app_nil_r.
  - rewrite fmap_cons. simpl for_each. rewrite !bucket_cons.
    unfold all_names_by_house_body, to_tuple. simpl.
    repeat (case_decide; simplify_eq/=; try done; try tauto);
      rewrite IH; simpl; by rewrite <- ?app_assoc.
Qed.

Lemma buckets_Permutation (l : list person) :
  Forall canonical l →
  bucket (λ p, house p = "Dumbledore's Army") l
    ++ bucket (λ p, house p = "Gryffindor") l
    ++ bucket (λ p, house p = "Hufflepuff") l
    ++ bucket (λ p, house p = "Ravenclaw") l
    ++ bucket (λ p, house p = "Slytherin") l
    ++ bucket (λ p, house p = "" ∧ cohort p = "G") l
    ++ bucket (λ p, house p = "" ∧ cohort p = "I") l
  ≡ₚ full_name <$> l.
Proof.
  induction 1 as [|[n h a c] l Hp _ IH]; [done|].
  rewrite !bucket_cons, fmap_cons, <- IH. simpl.
  destruct Hp as [Hh|[Hh Hc]]; simpl in *.
  - unfold canonical_houses in Hh. set_unfold.
    destruct Hh as [->|[->|[->|[->|[->|[]]]]]];
      repeat (case_decide; simplify_eq/=; try done; try tauto);
      solve_Permutation.
  - set_unfold. subst h. destruct Hc as [->|[->|[]]];
      repeat (case_decide; simplify_eq/=; try done; try tauto);
      solve_Permutation.
Qed.

(** *** Counting students *)

Lemma student_count (l : list person) :
  length (filter (λ p, cohort p ∉ ["I"; "G"]) l)
  + length (filter (λ p, cohort p = "G") l)
  + length (filter (λ p, cohort p = "I") l)
  = length l.
Proof.
  induction l as [|[n h a c] l IH]; [done|].
  rewrite !filter_cons. simpl.
  destruct (decide (c = "G")) as [->|HG];
    [|destruct (decide (c = "I")) as [->|HI]].
  - rewrite decide_False by (set_unfold; naive_solver).
    rewrite decide_False by done. simpl. lia.
  - rewrite decide_False by (set_unfold; naive_solver). simpl. lia.
  - rewrite decide_True by (set_unfold; naive_solver). simpl. lia.
Qed.

(** *** The loop of [find_duped_last_names] *)

Lemma second_count_cons t data x :
  second_count (t :: data) x
  = (if decide (t !! 1 = Some x) then 1 else 0) + second_count data x.
Proof. unfold second_count. rewrite filter_cons. by case_decide. Qed.

Lemma find_duped_last_names_loop (data : list tuple) dupes seen :
  Forall (λ t, 2 ≤ length t) data →
  ∃ dupes' seen',
    for_each find_duped_last_names_body (dupes, seen) data = Ok (dupes', seen')
    ∧ (∀ x, x ∈ seen' ↔ x ∈ seen ∨ 1 ≤ second_count data x)
    ∧ (∀ x, x ∈ dupes' ↔
            x ∈ dupes ∨ (x ∈ seen ∧ 1 ≤ second_count data x)
            ∨ 2 ≤ second_count data x).
Proof.
  intros Hall. revert dupes seen.
  induction Hall as [|t data Ht _ IH]; intros dupes seen.
  - exists dupes, seen. split; [done|].
    unfold second_count; simpl. split; intros x; [naive_solver lia|].
    naive_solver lia.
  - apply unpack_2_star_Ok in Ht as (a & last & rest & -> & _).
    simpl.
    edestruct IH as (dupes' & seen' & -> & Hseen & Hdupes).
    exists dupes', seen'. split; [done|].
    split; intros x; rewrite ?Hseen, ?Hdupes, second_count_cons; simpl;
      repeat case_decide; simplify_eq; set_unfold; naive_solver lia.
Qed.


(** ** The loader *)

Section loader.

Context (fs : string → option string) (filename text : string).
Hypothesis Hfile : fs filename = Some text.

Lemma open_lines_Ok : open_lines fs filename = Ok (file_lines text).
Proof. unfold open_lines. by rewrite Hfile. Qed.

Lemma all_data_Ok :
  Forall (λ line, 2 ≤ length (parse_line line)) (file_lines text) →
  all_data fs filename = Ok (merge_names ∘ parse_line <$> file_lines text).
Proof.
  intros Hall. unfold all_data. rewrite open_lines_Ok, bind_Ok.
  rewrite list_fmap_compose. apply mapM_Ok_fmap, Forall_fmap.
  eapply Forall_impl; [exact Hall|]. intros line Hlen. simpl.
  by apply unpack_2_star_Ok in Hlen as (a & b & rest & -> & _).
Qed.

Lemma all_data_Raise :
  Exists (λ line, length (parse_line line) < 2) (file_lines text) →
  all_data fs filename = Raise ValueError.
Proof.
  intros Hex. unfold all_data. rewrite open_lines_Ok, bind_Ok.
  apply mapM_Raise.
  - apply Forall_true. intros t e.
    destruct t as [|a [|b rest]]; simpl; intros Heq; by inversion Heq.
  - apply Exists_fmap. eapply Exists_impl; [exact Hex|].
    intros line Hlen. simpl. exists ValueError.
    by rewrite unpack_2_star_Raise.
Qed.

End loader.

(** ** Properties of the loader and the queries *)

(** Closes a decidable goal by evaluating its decision procedure. *)
Ltac by_compute := refine (bool_decide_unpack _ _); vm_compute; exact I.

(** C8.  The loader produces one record per line, in file order.  For each
    line: the trailing whitespace is stripped, the rest is split on "|", the
    first two fields are joined with one space into the full name, and the
    remaining fields follow in their order, so that a line of five fields
    gives the record (full_name, house, adviser, cohort).  The stripped line
    and its fields are the only ones that fit the spec's description. *)
Theorem all_data_spec (fs : string → option string) (filename text : string) :
  fs filename = Some text →
  Forall (λ line, 2 ≤ length (parse_line line)) (file_lines text) →
  ∃ records,
    all_data fs filename = Ok records
    ∧ foldr String.app "" (file_lines text) = universal_newlines text
    ∧ length records = length (file_lines text)
    ∧ ∀ i line, file_lines text !! i = Some line →
        ∃ stripped first last rest,
          stripped_of line stripped
          ∧ fields_of "|" stripped (first :: last :: rest)
          ∧ (∀ stripped' fields',
               stripped_of line stripped' → fields_of "|" stripped' fields' →
               stripped' = stripped ∧ fields' = first :: last :: rest)
          ∧ records !! i = Some ((first +:+ " " +:+ last) :: rest)
          ∧ (∀ h a c, rest = [h; a; c] →
               records !! i
               = Some (to_tuple (Person (first +:+ " " +:+ last) h a c))).
Proof.
  intros Hfile Hall.
  exists (merge_names ∘ parse_line <$> file_lines text).
  split; [by apply all_data_Ok|].
  split; [apply PyFacts.iter_lines_concat|].
  split; [by rewrite length_fmap|].
  intros i line Hline.
  pose proof (Forall_lookup_1 _ _ _ _ Hall Hline) as Hlen. simpl in Hlen.
  apply PyFacts.unpack_2_star_Ok in Hlen as (first & last & rest & Hparse & _).
  exists (rstrip line), first, last, rest.
  assert (records_i : (merge_names ∘ parse_line <$> file_lines text) !! i
                      = Some ((first +:+ " " +:+ last) :: rest)).
  { rewrite list_lookup_fmap, Hline. simpl. by rewrite Hparse. }
  split; [apply PyFacts.rstrip_stripped_of|].
  split; [rewrite <- Hparse; apply PyFacts.split_fields_of|].
  split; [|split; [done|by intros h a c ->]].
  intros stripped' fields' Hs Hf.
  apply PyFacts.stripped_of_unique in Hs as ->.
  apply PyFacts.fields_of_unique in Hf as ->. by rewrite <- Hparse.
Qed.

Lemma all_data_spec_witness :
  ∃ records,
    all_data (disk hogwarts) "cohort_data.txt" = Ok records
    ∧ length records = 7
    ∧ records !! 4 = Some (to_tuple (Person "Moaning Myrtle" "" "" "G")).
Proof.
  destruct (all_data_spec (disk hogwarts) "cohort_data.txt" hogwarts)
    as (records & Hok & _ & Hlen & Hrec).
  - reflexivity.
  - by_compute.
  - exists records. split; [exact Hok|]. split; [exact Hlen|].
    destruct (Hrec 4 _ eq_refl)
      as (stripped & first & last & rest & _ & _ & Huniq & Hi & _).
    destruct (Huniq _ _ (PyFacts.rstrip_stripped_of _)
                (PyFacts.split_fields_of _ _)) as [_ Hfields].
    vm_compute in Hfields. injection Hfields as <- <- <-. exact Hi.
Defined.

(** C9.  When every line splits into two fields or more, the unpacking in
    the loader succeeds.  When some line splits into fewer than two, as a
    blank line does, [all_data] raises [ValueError], and no query on that
    file returns a value: the six that call [all_data] raise its
    [ValueError], and [find_duped_last_names] raises the [NameError] that it
    raises on every file. *)
Theorem unpacking_total_or_raises (fs : string → option string)
    (filename text : string) :
  fs filename = Some text →
  (Forall (λ line, 2 ≤ length (parse_line line)) (file_lines text) →
   ∃ records, all_data fs filename = Ok records)
  ∧ (Exists (λ line, length (parse_line line) < 2) (file_lines text) →
     all_data fs filename = Raise ValueError
     ∧ all_houses fs filename = Raise ValueError
     ∧ (∀ cohort, students_by_cohort fs filename cohort = Raise ValueError)
     ∧ all_names_by_house fs filename = Raise ValueError
     ∧ (∀ name, get_cohort_for fs filename name = Raise ValueError)
     ∧ find_duped_last_names filename = Raise NameError
     ∧ (∀ name, get_house_for fs filename name = Raise ValueError)
     ∧ (∀ name, get_housemates_for fs filename name = Raise ValueError))
  ∧ (∀ line, all_space line → length (parse_line line) < 2).
Proof.
  intros Hfile. split; [|split].
  - intros Hall. eexists. by apply all_data_Ok.
  - intros Hex. pose proof (all_data_Raise _ _ _ Hfile Hex) as Hraise.
    assert (Hcohort : ∀ name, get_cohort_for fs filename name = Raise ValueError)
      by (intros name; unfold get_cohort_for; by rewrite Hraise).
    repeat split; try done.
    + unfold all_houses. by rewrite Hraise.
    + intros cohort. unfold students_by_cohort. by rewrite Hraise.
    + unfold all_names_by_house. by rewrite Hraise.
    + intros name. unfold get_house_for. by rewrite Hraise.
    + intros name. unfold get_housemates_for. by rewrite Hcohort.
  - intros line Hsp. unfold parse_line.
    rewrite (PyFacts.rstrip_all_space _ Hsp). simpl. lia.
Qed.

Lemma unpacking_total_or_raises_witness :
  all_data (disk blank_line) "cohort_data.txt" = Raise ValueError
  ∧ find_duped_last_names "cohort_data.txt" = Raise NameError
  ∧ get_cohort_for (disk blank_line) "cohort_data.txt" "Harry Potter"
    = Raise ValueError.
Proof.
  destruct (unpacking_total_or_raises (disk blank_line) "cohort_data.txt"
              blank_line eq_refl) as (_ & Hraises & _).
  destruct Hraises as (Hdata & _ & _ & _ & Hcohort & Hdupes & _).
  - by_compute.
  - split; [exact Hdata|]. split; [exact Hdupes|]. apply Hcohort.
Defined.

(** C2.  The claim fails on the code: [find_duped_last_names] returns no
    set at all.  It calls [read_cohort_data], a name the module never binds,
    so it raises [NameError] for every file name, before any file is read;
    for the file of Fred and George Weasley it does not return the set that
    holds "Weasley". *)
Theorem find_duped_last_names_NameError :
  (∀ filename, find_duped_last_names filename = Raise NameError)
  ∧ disk weasleys "cohort_data.txt" = Some weasleys
  ∧ find_duped_last_names "cohort_data.txt" ≠ Ok {["Weasley"]}.
Proof. split; [done|]. split; [done|]. by intros [=]. Qed.

(** C7.  [all_houses] returns exactly the non-empty values that stand in the
    house field of some record: it never holds the empty string, and it holds
    nothing that is no record's house. *)
Theorem all_houses_spec (fs : string → option string) (filename : string)
    (people : list person) :
  roster_file fs filename people →
  ∃ houses,
    all_houses fs filename = Ok houses
    ∧ (∀ h, h ∈ houses ↔ h ≠ "" ∧ ∃ p, p ∈ people ∧ house p = h)
    ∧ "" ∉ houses.
Proof.
  intros Hroster. eexists. split; [by apply all_houses_roster|].
  assert (Hmem : ∀ h,
    h ∈ (list_to_set (house <$> filter (λ p, house p ≠ "") people) : gset string)
    ↔ h ≠ "" ∧ ∃ p, p ∈ people ∧ house p = h).
  { intros h. rewrite elem_of_list_to_set, list_elem_of_fmap. split.
    - intros (p & -> & [Hne Hin]%list_elem_of_filter). eauto.
    - intros (Hne & p & Hin & <-). exists p. split; [done|].
      by apply list_elem_of_filter. }
  split; [done|]. intros [Hne _]%Hmem. done.
Qed.

Lemma all_houses_spec_witness :
  ∃ houses,
    all_houses (disk hogwarts) "cohort_data.txt" = Ok houses
    ∧ "Ravenclaw" ∈ houses ∧ "" ∉ houses.
Proof.
  destruct (all_houses_spec (disk hogwarts) "cohort_data.txt" hogwarts_people)
    as (houses & Hok & Hmem & Hempty).
  - reflexivity.
  - exists houses. split; [exact Hok|]. split; [|exact Hempty].
    apply Hmem. split; [discriminate|].
    exists (Person "Cho Chang" "Ravenclaw" "Flitwick" "Fall 2015").
    split; [by_compute|reflexivity].
Defined.

(** C6.  [get_cohort_for] and [get_house_for] return the cohort and the house
    of the first record, in file order, whose full name is the given name,
    and return [None], without raising, when no record has that name. *)
Theorem get_cohort_house_for_spec (fs : string → option string)
    (filename : string) (people : list person) (name : string) :
  roster_file fs filename people →
  (∀ i t, first_match people name i t →
     get_cohort_for fs filename name = Ok (Some (cohort t))
     ∧ get_house_for fs filename name = Ok (Some (house t)))
  ∧ ((∀ p, p ∈ people → full_name p ≠ name) →
     get_cohort_for fs filename name = Ok None
     ∧ get_house_for fs filename name = Ok None).
Proof.
  intros Hroster.
  assert (get_cohort_for fs filename name
          = get_cohort_for_loop name (to_tuple <$> people)) as ->
    by (unfold get_cohort_for; by rewrite Hroster).
  assert (get_house_for fs filename name
          = get_house_for_loop name (to_tuple <$> people)) as ->
    by (unfold get_house_for; by rewrite Hroster).
  split.
  - intros i t (Hi & Ht & Hbefore). split.
    + by apply (get_cohort_for_loop_first name people i t).
    + by apply (get_house_for_loop_first name people i t).
  - intros Hmiss. apply Forall_forall in Hmiss. split.
    + by apply get_cohort_for_loop_miss.
    + by apply get_house_for_loop_miss.
Qed.

Lemma get_cohort_house_for_spec_witness :
  get_cohort_for (disk hogwarts) "cohort_data.txt" "Cho Chang"
  = Ok (Some "Fall 2015")
  ∧ get_house_for (disk hogwarts) "cohort_data.txt" "Cho Chang"
    = Ok (Some "Ravenclaw")
  ∧ get_cohort_for (disk hogwarts) "cohort_data.txt" "Balloonicorn" = Ok None.
Proof.
  destruct (get_cohort_house_for_spec (disk hogwarts) "cohort_data.txt"
              hogwarts_people "Cho Chang") as [Hhit _]; [reflexivity|].
  destruct (get_cohort_house_for_spec (disk hogwarts) "cohort_data.txt"
              hogwarts_people "Balloonicorn") as [_ Hmiss]; [reflexivity|].
  destruct (Hhit 3 (Person "Cho Chang" "Ravenclaw" "Flitwick" "Fall 2015"))
    as [Hc Hh].
  - split; [reflexivity|]. split; [reflexivity|].
    intros j q Hj Hlt.
    destruct j as [|[|[|j]]]; [injection Hj as <-; discriminate..|lia].
  - split; [exact Hc|]. split; [exact Hh|].
    apply Hmiss. intros p Hp. revert p Hp. apply Forall_forall. by_compute.
Defined.

(** C4.  Called without a cohort, or with "All", [students_by_cohort] returns
    a list as long as the file has records, less the records whose cohort is
    "G", less the records whose cohort is "I". *)
Theorem students_by_cohort_all_length (fs : string → option string)
    (filename : string) (people : list person) (cohort_arg : option string) :
  roster_file fs filename people →
  cohort_arg = None ∨ cohort_arg = Some "All" →
  ∃ names,
    students_by_cohort fs filename cohort_arg = Ok names
    ∧ length names
      = length people
        - length (filter (λ p, cohort p = "G") people)
        - length (filter (λ p, cohort p = "I") people).
Proof.
  intros Hroster Harg. eexists. split.
  - apply (students_by_cohort_all fs filename people Hroster).
    by destruct Harg as [-> | ->].
  - rewrite sorted_length, length_fmap.
    pose proof (student_count people). lia.
Qed.

Lemma students_by_cohort_all_length_witness :
  ∃ names,
    students_by_cohort (disk hogwarts) "cohort_data.txt" None = Ok names
    ∧ length names = 4.
Proof.
  destruct (students_by_cohort_all_length (disk hogwarts) "cohort_data.txt"
              hogwarts_people None) as (names & Hok & Hlen).
  - reflexivity.
  - by left.
  - exists names. split; [exact Hok|]. rewrite Hlen. reflexivity.
Defined.

(** C5.  With a cohort other than "All", [students_by_cohort] returns the
    full names of exactly the records whose cohort is that string (compared
    as strings, case and all; never a record of cohort "G" or "I"), sorted in
    the order of strings, each name as often as it has such records. *)
Theorem students_by_cohort_filter_spec (fs : string → option string)
    (filename : string) (people : list person) (c : string) :
  roster_file fs filename people →
  c ≠ "All" →
  ∃ names,
    students_by_cohort fs filename (Some c) = Ok names
    ∧ names ≡ₚ full_name <$>
               filter (λ p, cohort p = c ∧ cohort p ≠ "G" ∧ cohort p ≠ "I")
                 people
    ∧ Sorted String.le names
    ∧ (∀ n, length (filter (λ x, x = n) names)
            = length (filter (λ p, full_name p = n ∧ cohort p = c
                                   ∧ cohort p ≠ "G" ∧ cohort p ≠ "I") people))
    ∧ (∀ names',
         names' ≡ₚ full_name <$>
                   filter (λ p, cohort p = c ∧ cohort p ≠ "G" ∧ cohort p ≠ "I")
                     people →
         Sorted String.le names' → names' = names).
Proof.
  intros Hroster Hc. eexists.
  split; [by apply (students_by_cohort_filter fs filename people Hroster)|].
  assert (Hfilter :
    filter (λ p, cohort p = c ∧ cohort p ∉ ["I"; "G"]) people
    = filter (λ p, cohort p = c ∧ cohort p ≠ "G" ∧ cohort p ≠ "I") people).
  { apply list_filter_iff. intros p. set_solver. }
  rewrite Hfilter.
  split; [apply sorted_Permutation|].
  split; [apply sorted_Sorted|].
  split; [|intros names'; apply sorted_unique].
  intros n. rewrite sorted_Permutation, filter_fmap, length_fmap.
  rewrite list_filter_filter. done.
Qed.

Lemma students_by_cohort_filter_spec_witness :
  ∃ names,
    students_by_cohort (disk hogwarts) "cohort_data.txt" (Some "Fall 2015")
    = Ok names
    ∧ names = ["Cho Chang"; "Harry Potter"; "Ron Weasley"].
Proof.
  destruct (students_by_cohort_filter_spec (disk hogwarts) "cohort_data.txt"
              hogwarts_people "Fall 2015") as (names & Hok & _ & _ & _ & Huniq).
  - reflexivity.
  - discriminate.
  - exists names. split; [exact Hok|]. symmetry. apply Huniq.
    + by_compute.
    + by_compute.
Defined.

(** C10.  Passing "All" is the same as passing nothing: the comparison with
    the cohort is left out, and everybody who is neither ghost nor instructor
    is returned, a student whose cohort reads "All" among them.  For every
    other value the answer is what it would be on the file without the
    records of cohort "All": no value of the argument selects them by their
    cohort. *)
Theorem students_by_cohort_All_bypass (fs : string → option string)
    (filename : string) (people : list person) :
  roster_file fs filename people →
  ∃ everyone,
    students_by_cohort fs filename None = Ok everyone
    ∧ students_by_cohort fs filename (Some "All") = Ok everyone
    ∧ everyone ≡ₚ full_name <$>
                  filter (λ p, cohort p ≠ "G" ∧ cohort p ≠ "I") people
    ∧ (∀ p, p ∈ people → cohort p = "All" → full_name p ∈ everyone)
    ∧ (∀ c, c ≠ "All" →
         ∃ names,
           students_by_cohort fs filename (Some c) = Ok names
           ∧ names ≡ₚ full_name <$>
                      filter (λ p, cohort p = c ∧ cohort p ≠ "G" ∧ cohort p ≠ "I")
                        (filter (λ p, cohort p ≠ "All") people)).
Proof.
  intros Hroster. eexists.
  split; [by apply (students_by_cohort_all fs filename people Hroster)|].
  split; [by apply (students_by_cohort_all fs filename people Hroster)|].
  assert (Hfilter :
    filter (λ p, cohort p ∉ ["I"; "G"]) people
    = filter (λ p, cohort p ≠ "G" ∧ cohort p ≠ "I") people).
  { apply list_filter_iff. intros p. set_solver. }
  rewrite Hfilter. split; [apply sorted_Permutation|]. split.
  - intros p Hin Hall. rewrite sorted_Permutation.
    apply list_elem_of_fmap. exists p. split; [done|].
    apply list_elem_of_filter. split; [|done]. rewrite Hall. done.
  - intros c Hc. eexists.
    split; [by apply (students_by_cohort_filter fs filename people Hroster)|].
    rewrite sorted_Permutation, list_filter_filter.
    erewrite list_filter_iff; [done|]. intros p. set_solver.
Qed.

Lemma students_by_cohort_All_bypass_witness :
  ∃ everyone,
    students_by_cohort (disk all_label) "cohort_data.txt" (Some "All")
    = Ok everyone
    ∧ "Cedric Diggory" ∈ everyone ∧ "Cho Chang" ∈ everyone.
Proof.
  destruct (students_by_cohort_All_bypass (disk all_label) "cohort_data.txt"
              all_label_people) as (everyone & _ & Hok & Hperm & Hin & _).
  - reflexivity.
  - exists everyone. split; [exact Hok|]. split.
    + apply (Hin (Person "Cedric Diggory" "Hufflepuff" "Sprout" "All"));
        [by_compute|reflexivity].
    + rewrite Hperm. by_compute.
Defined.

Lemma all_names_by_house_roster (fs : string → option string)
    (filename : string) (people : list person) :
  roster_file fs filename people →
  all_names_by_house fs filename
  = Ok [ sorted (bucket (λ p, house p = "Dumbledore's Army") people);
         sorted (bucket (λ p, house p = "Gryffindor") people);
         sorted (bucket (λ p, house p = "Hufflepuff") people);
         sorted (bucket (λ p, house p = "Ravenclaw") people);
         sorted (bucket (λ p, house p = "Slytherin") people);
         sorted (bucket (λ p, house p = "" ∧ cohort p = "G") people);
         sorted (bucket (λ p, house p = "" ∧ cohort p = "I") people) ].
Proof.
  intros Hroster. unfold all_names_by_house.
  by rewrite Hroster, bind_Ok, all_names_by_house_loop.
Qed.

(** C3.  On a file whose records use only the five house names and the
    sentinels "G" and "I", [all_names_by_house] returns seven lists, in the
    order Dumbledore's Army, Gryffindor, Hufflepuff, Ravenclaw, Slytherin,
    ghosts, instructors (empty ones included); each list holds the names of
    its bucket and is sorted on its own, and together the lists hold every
    record's full name exactly once. *)
Theorem all_names_by_house_spec (fs : string → option string)
    (filename : string) (people : list person) :
  roster_file fs filename people →
  Forall canonical people →
  ∃ da gr hu ra sl gh ins,
    all_names_by_house fs filename = Ok [da; gr; hu; ra; sl; gh; ins]
    ∧ da ≡ₚ bucket (λ p, house p = "Dumbledore's Army") people
    ∧ gr ≡ₚ bucket (λ p, house p = "Gryffindor") people
    ∧ hu ≡ₚ bucket (λ p, house p = "Hufflepuff") people
    ∧ ra ≡ₚ bucket (λ p, house p = "Ravenclaw") people
    ∧ sl ≡ₚ bucket (λ p, house p = "Slytherin") people
    ∧ gh ≡ₚ bucket (λ p, house p = "" ∧ cohort p = "G") people
    ∧ ins ≡ₚ bucket (λ p, house p = "" ∧ cohort p = "I") people
    ∧ Forall (Sorted String.le) [da; gr; hu; ra; sl; gh; ins]
    ∧ da ++ gr ++ hu ++ ra ++ sl ++ gh ++ ins ≡ₚ full_name <$> people.
Proof.
  intros Hroster Hcanon. do 7 eexists.
  split; [by apply (all_names_by_house_roster fs filename people)|].
  do 7 (split; [apply sorted_Permutation|]).
  split; [repeat constructor; apply sorted_Sorted|].
  rewrite !sorted_Permutation. by apply buckets_Permutation.
Qed.

Lemma all_names_by_house_spec_witness :
  ∃ da gr hu ra sl gh ins,
    all_names_by_house (disk hogwarts) "cohort_data.txt"
    = Ok [da; gr; hu; ra; sl; gh; ins]
    ∧ length (da ++ gr ++ hu ++ ra ++ sl ++ gh ++ ins) = 7.
Proof.
  destruct (all_names_by_house_spec (disk hogwarts) "cohort_data.txt"
              hogwarts_people)
    as (da & gr & hu & ra & sl & gh & ins & Hok & H).
  - reflexivity.
  - by_compute.
  - exists da, gr, hu, ra, sl, gh, ins. split; [exact Hok|].
    destruct H as (_ & _ & _ & _ & _ & _ & _ & _ & Hall).
    rewrite Hall. reflexivity.
Defined.

Lemma get_cohort_for_loop_Ok (name : string) (l : list person) :
  ∃ tc, get_cohort_for_loop name (to_tuple <$> l) = Ok tc
        ∧ (tc = None → Forall (λ p, full_name p ≠ name) l).
Proof.
  induction l as [|p l (tc & IH & Hnone)]; [by exists None|].
  simpl. case_decide as Hp.
  - by exists (Some (cohort p)).
  - exists tc. split; [done|]. intros Htc. constructor; auto.
Qed.

Lemma get_house_for_loop_Ok (name : string) (l : list person) :
  ∃ th, get_house_for_loop name (to_tuple <$> l) = Ok th.
Proof.
  induction l as [|p l (th & IH)]; [by exists None|].
  simpl. case_decide; eauto.
Qed.

Lemma get_housemates_for_roster (fs : string → option string)
    (filename : string) (people : list person) (name : string) tc th :
  roster_file fs filename people →
  get_cohort_for fs filename name = Ok tc →
  get_house_for fs filename name = Ok th →
  get_housemates_for fs filename name
  = Ok (list_to_set
          (full_name <$>
           filter (λ p, full_name p ≠ name ∧ Some (house p) = th
                        ∧ Some (cohort p) = tc) people)).
Proof.
  intros Hroster Hc Hh. unfold get_housemates_for.
  rewrite Hc, bind_Ok, Hh, bind_Ok, Hroster, bind_Ok.
  rewrite unpack_4_people, bind_Ok.
  by rewrite filter_fmap, <- list_fmap_compose.
Qed.

(** C1, as the code has it.  The set that [get_housemates_for] returns never
    holds the queried name.  It is empty when no record has that name.  When
    the first record of that name has house [h] and cohort [c], the set holds
    the other names that have a record of house [h] and cohort [c]: for a
    ghost or an instructor [h] is empty and [c] is "G" or "I", and the set
    holds the other ghosts, or the other instructors. *)
Theorem get_housemates_for_spec (fs : string → option string)
    (filename : string) (people : list person) (name : string) :
  roster_file fs filename people →
  ∃ mates,
    get_housemates_for fs filename name = Ok mates
    ∧ (name ∉ mates)
    ∧ ((∀ p, p ∈ people → full_name p ≠ name) → mates = ∅)
    ∧ (∀ i t, first_match people name i t →
         ∀ n, n ∈ mates ↔
              n ≠ name
              ∧ ∃ p, p ∈ people ∧ full_name p = n
                     ∧ house p = house t ∧ cohort p = cohort t).
Proof.
  intros Hroster.
  destruct (get_cohort_for_loop_Ok name people) as (tc & Hc & _).
  destruct (get_house_for_loop_Ok name people) as (th & Hh).
  assert (Hc' : get_cohort_for fs filename name = Ok tc)
    by (unfold get_cohort_for; by rewrite Hroster).
  assert (Hh' : get_house_for fs filename name = Ok th)
    by (unfold get_house_for; by rewrite Hroster).
  eexists. split; [by apply (get_housemates_for_roster fs filename people)|].
  split; [|split].
  - rewrite elem_of_list_to_set, list_elem_of_fmap.
    intros (p & -> & [[Hne _] _]%list_elem_of_filter). done.
  - intros Hnone%Forall_forall.
    rewrite (get_house_for_loop_miss name people Hnone) in Hh.
    injection Hh as <-.
    apply set_eq. intros n.
    rewrite elem_of_list_to_set, list_elem_of_fmap. split; [|set_solver].
    intros (p & -> & [(_ & Hhouse & _) _]%list_elem_of_filter). done.
  - intros i t (Hi & Ht & Hbefore) n.
    rewrite (get_cohort_for_loop_first name people i t Hi Ht Hbefore) in Hc.
    rewrite (get_house_for_loop_first name people i t Hi Ht Hbefore) in Hh.
    injection Hc as <-. injection Hh as <-.
    rewrite elem_of_list_to_set, list_elem_of_fmap. split.
    + intros (p & -> & [(Hne & [= Hhouse] & [= Hcohort]) Hin]%list_elem_of_filter).
      eauto 10.
    + intros (Hne & p & Hin & <- & Hhouse & Hcohort). exists p.
      split; [done|]. apply list_elem_of_filter. rewrite Hhouse, Hcohort. done.
Qed.

Lemma get_housemates_for_spec_witness :
  ∃ mates,
    get_housemates_for (disk hogwarts) "cohort_data.txt" "Harry Potter"
    = Ok mates
    ∧ ("Harry Potter" ∉ mates) ∧ "Ron Weasley" ∈ mates.
Proof.
  destruct (get_housemates_for_spec (disk hogwarts) "cohort_data.txt"
              hogwarts_people "Harry Potter")
    as (mates & Hok & Hself & _ & Hmates).
  - reflexivity.
  - exists mates. split; [exact Hok|]. split; [exact Hself|].
    apply (Hmates 0 (Person "Harry Potter" "Gryffindor" "McGonagall" "Fall 2015")).
    + split; [reflexivity|]. split; [reflexivity|]. intros j q _ Hlt. lia.
    + split; [discriminate|].
      exists (Person "Ron Weasley" "Gryffindor" "McGonagall" "Fall 2015").
      split; [by_compute|]. repeat split.
Defined.

(** C1, as the spec has it, fails: Moaning Myrtle is a ghost, and her
    housemates are not the empty set but the other ghost of the file. *)
Lemma get_housemates_for_ghost_counterexample :
  roster_file (disk hogwarts) "cohort_data.txt" hogwarts_people
  ∧ first_match hogwarts_people "Moaning Myrtle" 4
      (Person "Moaning Myrtle" "" "" "G")
  ∧ get_housemates_for (disk hogwarts) "cohort_data.txt" "Moaning Myrtle"
    = Ok {["Fat Friar"]}
  ∧ get_housemates_for (disk hogwarts) "cohort_data.txt" "Moaning Myrtle"
    ≠ Ok ∅.
Proof.
  assert (Hmates :
    get_housemates_for (disk hogwarts) "cohort_data.txt" "Moaning Myrtle"
    = Ok {["Fat Friar"]}) by (vm_compute; reflexivity).
  split; [reflexivity|]. split; [|split; [exact Hmates|]].
  - split; [reflexivity|]. split; [reflexivity|].
    intros j q Hj Hlt.
    destruct j as [|[|[|[|j]]]]; [injection Hj as <-; discriminate..|lia].
  - rewrite Hmates. by intros [=].
Qed.

(** ** Further properties of the code *)

(** *** Which exceptions, and when *)

Lemma unpack_4_exn t e : unpack_4 t = Raise e → e = ValueError.
Proof. destruct t as [|a [|b [|c [|d [|x t]]]]]; simpl; congruence. Qed.

Lemma unpack_4_Raise t : length t ≠ 4 → unpack_4 t = Raise ValueError.
Proof. destruct t as [|a [|b [|c [|d [|x t]]]]]; simpl; intros; done || lia. Qed.

Lemma unpack_4_of_tuple t : length t = 4 → to_tuple (of_tuple t) = t.
Proof. destruct t as [|a [|b [|c [|d [|x t]]]]]; simpl; intros; done || lia. Qed.

Lemma to_tuple_of_tuple (records : list tuple) :
  Forall (λ r, length r = 4) records →
  records = to_tuple <$> (of_tuple <$> records).
Proof.
  induction 1 as [|r l Hr _ IH]; [done|].
  rewrite !fmap_cons, <- IH. by rewrite unpack_4_of_tuple.
Qed.

Lemma get_cohort_for_loop_exn name records e :
  get_cohort_for_loop name records = Raise e → e = ValueError.
Proof.
  induction records as [|r l IH]; [done|]. simpl.
  destruct (unpack_4 r) as [[[[n h] a] c]|e'] eqn:Hr; simpl.
  - case_decide; [done|exact IH].
  - intros [= <-]. by eapply unpack_4_exn.
Qed.

Lemma get_house_for_loop_exn name records e :
  get_house_for_loop name records = Raise e → e = ValueError.
Proof.
  induction records as [|r l IH]; [done|]. simpl.
  destruct (unpack_2_star r) as [[[n h] rest]|e'] eqn:Hr; simpl.
  - case_decide; [done|exact IH].
  - intros [= <-]. by eapply unpack_2_star_exn.
Qed.

Lemma mapM_unpack_4_Raise (records : list tuple) :
  Exists (λ r, length r ≠ 4) records →
  mapM unpack_4 records = Raise ValueError.
Proof.
  intros Hex. apply mapM_Raise.
  - apply Forall_true. intros t e. apply unpack_4_exn.
  - eapply Exists_impl; [exact Hex|]. intros r Hr.
    exists ValueError. by apply unpack_4_Raise.
Qed.

(** X1.  When there is no file to open at the path, [open] raises before
    anything is read: [ValueError] when the path holds a NUL character,
    [OSError] otherwise.  [all_data] and the six queries that call it raise
    that exception; none of them returns a value. *)
Theorem missing_file_raises (fs : string → option string) (filename : string) :
  fs filename = None →
  (all_data fs filename = Raise (open_error filename)
   ∧ all_houses fs filename = Raise (open_error filename)
   ∧ (∀ cohort,
        students_by_cohort fs filename cohort = Raise (open_error filename))
   ∧ all_names_by_house fs filename = Raise (open_error filename)
   ∧ (∀ name, get_cohort_for fs filename name = Raise (open_error filename))
   ∧ (∀ name, get_house_for fs filename name = Raise (open_error filename))
   ∧ (∀ name,
        get_housemates_for fs filename name = Raise (open_error filename)))
  ∧ (NUL ∈ String.list_ascii_of_string filename →
     open_error filename = ValueError)
  ∧ (NUL ∉ String.list_ascii_of_string filename →
     open_error filename = OSError).
Proof.
  intros Hnone.
  assert (Hopen : open_lines fs filename = Raise (open_error filename))
    by (unfold open_lines; by rewrite Hnone).
  assert (Hdata : all_data fs filename = Raise (open_error filename))
    by (unfold all_data; by rewrite Hopen).
  assert (Hcohort : ∀ name,
            get_cohort_for fs filename name = Raise (open_error filename))
    by (intros name; unfold get_cohort_for; by rewrite Hdata).
  split; [|split].
  - repeat split; try done.
    + unfold all_houses. by rewrite Hdata.
    + intros cohort. unfold students_by_cohort. by rewrite Hdata.
    + unfold all_names_by_house. by rewrite Hdata.
    + intros name. unfold get_house_for. by rewrite Hdata.
    + intros name. unfold get_housemates_for. by rewrite Hcohort.
  - intros Hnul. unfold open_error. by rewrite decide_True.
  - intros Hnul. unfold open_error. by rewrite decide_False.
Qed.

Lemma missing_file_raises_witness :
  all_houses (disk hogwarts) "no_such_file.txt" = Raise OSError
  ∧ get_housemates_for (disk hogwarts) "no_such_file.txt" "Harry Potter"
    = Raise OSError.
Proof.
  destruct (missing_file_raises (disk hogwarts) "no_such_file.txt" eq_refl)
    as ((_ & Hhouses & _ & _ & _ & _ & Hmates) & _ & Hos).
  rewrite <- Hos by by_compute.
  split; [exact Hhouses|apply Hmates].
Defined.

(** X2.  On an empty file there is nothing to unpack, so the loader and the
    six queries that call it return: the loader returns no record, the sets
    are empty, the lookups return [None], and [all_names_by_house] still
    returns its seven lists, all empty. *)
Theorem empty_file_results (fs : string → option string) (filename : string) :
  fs filename = Some "" →
  all_data fs filename = Ok []
  ∧ all_houses fs filename = Ok ∅
  ∧ (∀ cohort, students_by_cohort fs filename cohort = Ok [])
  ∧ all_names_by_house fs filename = Ok [[]; []; []; []; []; []; []]
  ∧ (∀ name, get_cohort_for fs filename name = Ok None)
  ∧ (∀ name, get_house_for fs filename name = Ok None)
  ∧ (∀ name, get_housemates_for fs filename name = Ok ∅).
Proof.
  intros Hfile.
  assert (Hopen : open_lines fs filename = Ok [])
    by (unfold open_lines; by rewrite Hfile).
  assert (Hdata : all_data fs filename = Ok [])
    by (unfold all_data; by rewrite Hopen).
  assert (Hcohort : ∀ name, get_cohort_for fs filename name = Ok None)
    by (intros name; unfold get_cohort_for; by rewrite Hdata).
  assert (Hhouse : ∀ name, get_house_for fs filename name = Ok None)
    by (intros name; unfold get_house_for; by rewrite Hdata).
  repeat split; try done.
  - unfold all_houses. by rewrite Hdata.
  - intros cohort. unfold students_by_cohort. rewrite Hdata. simpl.
    by case_decide.
  - unfold all_names_by_house. by rewrite Hdata.
  - intros name. unfold get_housemates_for.
    by rewrite Hcohort, bind_Ok, Hhouse, bind_Ok, Hdata.
Qed.

Lemma empty_file_results_witness :
  all_names_by_house (disk "") "cohort_data.txt" = Ok [[]; []; []; []; []; []; []]
  ∧ students_by_cohort (disk "") "cohort_data.txt" (Some "Fall 2015") = Ok [].
Proof.
  destruct (empty_file_results (disk "") "cohort_data.txt" eq_refl)
    as (_ & _ & Hstudents & Hrosters & _).
  split; [exact Hrosters|apply Hstudents].
Defined.

Lemma get_cohort_for_loop_app name (before : list person) (records : list tuple) :
  Forall (λ p, full_name p ≠ name) before →
  get_cohort_for_loop name ((to_tuple <$> before) ++ records)
  = get_cohort_for_loop name records.
Proof.
  induction 1 as [|p l Hp _ IH]; [done|]. simpl. by rewrite decide_False.
Qed.

Lemma get_house_for_loop_app name (before : list person) (records : list tuple) :
  Forall (λ p, full_name p ≠ name) before →
  get_house_for_loop name ((to_tuple <$> before) ++ records)
  = get_house_for_loop name records.
Proof.
  induction 1 as [|p l Hp _ IH]; [done|]. simpl. by rewrite decide_False.
Qed.

Lemma all_names_by_house_loop_Raise (records : list tuple) st :
  Exists (λ r, length r ≠ 4) records →
  for_each all_names_by_house_body st records = Raise ValueError.
Proof.
  intros Hex. apply for_each_Raise.
  - apply Forall_true. intros r st' e. unfold all_names_by_house_body.
    destruct (unpack_4 r) as [[[[n h] a] c]|e'] eqn:Hr, st'; simpl.
    + repeat case_decide; intros Heq; by inversion Heq.
    + intros [= <-]. by eapply unpack_4_exn.
  - eapply Exists_impl; [exact Hex|]. intros r Hr st'.
    exists ValueError. unfold all_names_by_house_body.
    by rewrite unpack_4_Raise.
Qed.

(** X3.  The two lookups unpack one record at a time and return at the first
    match, so a malformed record after the match goes unnoticed: they return
    the cohort and the house of the match, while the functions that unpack
    every record into four names raise [ValueError] on the same file. *)
Theorem lookup_returns_before_bad_record (fs : string → option string)
    (filename name : string) (before : list person) (t : person)
    (rest : list tuple) :
  all_data fs filename = Ok ((to_tuple <$> before) ++ to_tuple t :: rest) →
  Forall (λ p, full_name p ≠ name) before →
  full_name t = name →
  Exists (λ r, length r ≠ 4) rest →
  get_cohort_for fs filename name = Ok (Some (cohort t))
  ∧ get_house_for fs filename name = Ok (Some (house t))
  ∧ (∀ c, students_by_cohort fs filename c = Raise ValueError)
  ∧ all_names_by_house fs filename = Raise ValueError
  ∧ get_housemates_for fs filename name = Raise ValueError.
Proof.
  intros Hdata Hbefore Hname Hbad.
  assert (Hc : get_cohort_for fs filename name = Ok (Some (cohort t))).
  { unfold get_cohort_for. rewrite Hdata, bind_Ok, get_cohort_for_loop_app by done.
    simpl. by rewrite decide_True. }
  assert (Hh : get_house_for fs filename name = Ok (Some (house t))).
  { unfold get_house_for. rewrite Hdata, bind_Ok, get_house_for_loop_app by done.
    simpl. by rewrite decide_True. }
  assert (Hex : Exists (λ r, length r ≠ 4)
                  ((to_tuple <$> before) ++ to_tuple t :: rest)).
  { apply Exists_app. right. by apply Exists_cons_tl. }
  split; [done|]. split; [done|]. split; [|split].
  - intros c. unfold students_by_cohort.
    by rewrite Hdata, bind_Ok, mapM_unpack_4_Raise.
  - unfold all_names_by_house.
    by rewrite Hdata, bind_Ok, all_names_by_house_loop_Raise.
  - unfold get_housemates_for.
    by rewrite Hc, bind_Ok, Hh, bind_Ok, Hdata, bind_Ok, mapM_unpack_4_Raise.
Qed.

Lemma lookup_returns_before_bad_record_witness :
  get_cohort_for (disk ragged) "cohort_data.txt" "Harry Potter"
  = Ok (Some "Fall 2015")
  ∧ students_by_cohort (disk ragged) "cohort_data.txt" None = Raise ValueError.
Proof.
  destruct (lookup_returns_before_bad_record (disk ragged) "cohort_data.txt"
              "Harry Potter" []
              (Person "Harry Potter" "Gryffindor" "McGonagall" "Fall 2015")
              [["Ron Weasley"; "Gryffindor"]])
    as (Hc & _ & Hstudents & _).
  - reflexivity.
  - constructor.
  - reflexivity.
  - by_compute.
  - split; [exact Hc|apply Hstudents].
Defined.

(** X4.  [all_houses] and [get_house_for] take a record apart as a name, a
    house and whatever follows, so they need two elements per record and no
    more: on such a file [all_houses] returns the non-empty second elements,
    and it raises [ValueError] as soon as one record has the name alone. *)
Theorem all_houses_two_elements (fs : string → option string)
    (filename : string) (records : list tuple) :
  all_data fs filename = Ok records →
  (Forall (λ r, 2 ≤ length r) records →
   ∃ houses,
     all_houses fs filename = Ok houses
     ∧ ∀ h, h ∈ houses ↔ h ≠ "" ∧ ∃ r, r ∈ records ∧ r !! 1 = Some h)
  ∧ (Exists (λ r, length r < 2) records →
     all_houses fs filename = Raise ValueError).
Proof.
  intros Hdata. unfold all_houses. rewrite Hdata, bind_Ok. split.
  - intros Hall.
    rewrite (mapM_Ok_fmap unpack_2_star
               (λ t, match t with
                     | a :: b :: rest => (a, b, rest)
                     | _ => ("", "", [])
                     end)).
    + rewrite bind_Ok. eexists. split; [done|]. intros h.
      rewrite elem_of_list_to_set, list_elem_of_fmap. split.
      * intros (row & -> & [Hne Hin]%list_elem_of_filter).
        apply list_elem_of_fmap in Hin as (r & -> & Hr).
        split; [done|]. exists r. split; [done|].
        pose proof (proj1 (Forall_forall _ _) Hall r Hr) as Hlen.
        simpl in Hlen. by destruct r as [|a [|b rest]]; simpl in *; try lia.
      * intros (Hne & r & Hr & Hh).
        destruct r as [|a [|b rest]]; simplify_eq/=.
        exists (a, h, rest). split; [done|].
        apply list_elem_of_filter. split; [done|].
        apply list_elem_of_fmap. by exists (a :: h :: rest).
    + eapply Forall_impl; [exact Hall|]. intros r Hlen. simpl in Hlen.
      by destruct r as [|a [|b rest]]; simpl in *; try lia.
  - intros Hex. rewrite (mapM_Raise unpack_2_star ValueError); [done|..].
    + apply Forall_true. intros t e. apply unpack_2_star_exn.
    + eapply Exists_impl; [exact Hex|]. intros r Hr. simpl in Hr.
      exists ValueError. by apply unpack_2_star_Raise.
Qed.

Lemma all_houses_two_elements_witness :
  ∃ houses,
    all_houses (disk house_only) "cohort_data.txt" = Ok houses
    ∧ "Gryffindor" ∈ houses.
Proof.
  destruct (all_houses_two_elements (disk house_only) "cohort_data.txt"
              [["Harry Potter"; "Gryffindor"]; ["Moaning Myrtle"; ""]])
    as [Hok _]; [reflexivity|].
  destruct Hok as (houses & Hok & Hmem); [by_compute|].
  exists houses. split; [exact Hok|]. apply Hmem. split; [discriminate|].
  exists ["Harry Potter"; "Gryffindor"]. split; [by_compute|reflexivity].
Defined.

(** X5.  [students_by_cohort], [all_names_by_house] and [get_housemates_for]
    unpack every record into exactly four names.  They return a value when
    every record has four elements, and raise [ValueError] when some record
    has fewer or more, whatever the arguments. *)
Theorem four_elements_or_ValueError (fs : string → option string)
    (filename : string) (records : list tuple) :
  all_data fs filename = Ok records →
  (Forall (λ r, length r = 4) records →
   (∀ c, ∃ names, students_by_cohort fs filename c = Ok names)
   ∧ (∃ lists, all_names_by_house fs filename = Ok lists ∧ length lists = 7)
   ∧ (∀ name, ∃ mates, get_housemates_for fs filename name = Ok mates))
  ∧ (Exists (λ r, length r ≠ 4) records →
     (∀ c, students_by_cohort fs filename c = Raise ValueError)
     ∧ all_names_by_house fs filename = Raise ValueError
     ∧ (∀ name, get_housemates_for fs filename name = Raise ValueError)).
Proof.
  intros Hdata. split.
  - intros Hall.
    assert (Hroster : roster_file fs filename (of_tuple <$> records))
      by (unfold roster_file; by rewrite <- to_tuple_of_tuple).
    split; [|split].
    + intros c. unfold students_by_cohort.
      rewrite Hroster, bind_Ok, unpack_4_people, bind_Ok. simpl.
      case_decide; eauto.
    + eexists. split; [by apply all_names_by_house_roster|done].
    + intros name.
      destruct (get_cohort_for_loop_Ok name (of_tuple <$> records))
        as (tc & Hc & _).
      destruct (get_house_for_loop_Ok name (of_tuple <$> records)) as (th & Hh).
      eexists. apply (get_housemates_for_roster _ _ _ _ tc th Hroster).
      * unfold get_cohort_for. by rewrite Hroster.
      * unfold get_house_for. by rewrite Hroster.
  - intros Hex. split; [|split].
    + intros c. unfold students_by_cohort.
      by rewrite Hdata, bind_Ok, mapM_unpack_4_Raise.
    + unfold all_names_by_house.
      by rewrite Hdata, bind_Ok, all_names_by_house_loop_Raise.
    + intros name.
      assert (Hc : get_cohort_for fs filename name
                   = get_cohort_for_loop name records)
        by (unfold get_cohort_for; by rewrite Hdata).
      assert (Hh : get_house_for fs filename name
                   = get_house_for_loop name records)
        by (unfold get_house_for; by rewrite Hdata).
      unfold get_housemates_for. rewrite Hc.
      destruct (get_cohort_for_loop name records) as [tc|e] eqn:Hcl.
      * rewrite bind_Ok, Hh.
        destruct (get_house_for_loop name records) as [th|e] eqn:Hhl.
        -- by rewrite bind_Ok, Hdata, bind_Ok, mapM_unpack_4_Raise.
        -- by rewrite (get_house_for_loop_exn _ _ _ Hhl).
      * by rewrite (get_cohort_for_loop_exn _ _ _ Hcl).
Qed.

Lemma four_elements_or_ValueError_witness :
  all_names_by_house (disk house_only) "cohort_data.txt" = Raise ValueError
  ∧ get_housemates_for (disk house_only) "cohort_data.txt" "Harry Potter"
    = Raise ValueError.
Proof.
  destruct (four_elements_or_ValueError (disk house_only) "cohort_data.txt"
              [["Harry Potter"; "Gryffindor"]; ["Moaning Myrtle"; ""]])
    as [_ Hraise]; [reflexivity|].
  destruct Hraise as (_ & Hrosters & Hmates); [by_compute|].
  split; [exact Hrosters|apply Hmates].
Defined.

(** *** How the queries fit together *)

Lemma first_match_or_miss name (people : list person) :
  (∃ i t, first_match people name i t)
  ∨ Forall (λ p, full_name p ≠ name) people.
Proof.
  induction people as [|p l [(i & t & Hi & Ht & Hbefore)|Hmiss]].
  - right. constructor.
  - destruct (decide (full_name p = name)) as [Hp|Hp].
    + left. exists 0, p. split; [done|]. split; [done|]. intros j q _ Hlt. lia.
    + left. exists (S i), t. split; [done|]. split; [done|].
      intros [|j] q Hj Hlt; simplify_eq/=; [done|].
      apply (Hbefore j); [done|lia].
  - destruct (decide (full_name p = name)) as [Hp|Hp].
    + left. exists 0, p. split; [done|]. split; [done|]. intros j q _ Hlt. lia.
    + right. by constructor.
Qed.

Lemma first_match_elem (people : list person) name i t :
  first_match people name i t → t ∈ people.
Proof. intros (Hi & _ & _). by eapply list_elem_of_lookup_2. Qed.

Lemma first_match_unique (people : list person) name i t p :
  NoDup (full_name <$> people) →
  first_match people name i t → p ∈ people → full_name p = name → t = p.
Proof.
  intros Hnodup (Hi & Ht & _) [j Hj]%list_elem_of_lookup_1 Hp.
  assert (i = j) as ->; [|congruence].
  apply (NoDup_lookup _ i j name Hnodup).
  - by rewrite list_lookup_fmap, Hi; simpl; rewrite Ht.
  - by rewrite list_lookup_fmap, Hj; simpl; rewrite Hp.
Qed.

Section roster_queries.
Context (fs : string → option string) (filename : string).
Context (people : list person).
Hypothesis Hroster : roster_file fs filename people.

Lemma get_cohort_for_roster name :
  get_cohort_for fs filename name
  = get_cohort_for_loop name (to_tuple <$> people).
Proof. unfold get_cohort_for. by rewrite Hroster. Qed.

Lemma get_house_for_roster name :
  get_house_for fs filename name
  = get_house_for_loop name (to_tuple <$> people).
Proof. unfold get_house_for. by rewrite Hroster. Qed.

Lemma lookups_first name i t :
  first_match people name i t →
  get_cohort_for fs filename name = Ok (Some (cohort t))
  ∧ get_house_for fs filename name = Ok (Some (house t)).
Proof.
  intros (Hi & Ht & Hbefore).
  rewrite get_cohort_for_roster, get_house_for_roster. split.
  - by apply (get_cohort_for_loop_first name people i t).
  - by apply (get_house_for_loop_first name people i t).
Qed.

Lemma lookups_miss name :
  Forall (λ p, full_name p ≠ name) people →
  get_cohort_for fs filename name = Ok None
  ∧ get_house_for fs filename name = Ok None.
Proof.
  intros Hmiss. rewrite get_cohort_for_roster, get_house_for_roster. split.
  - by apply get_cohort_for_loop_miss.
  - by apply get_house_for_loop_miss.
Qed.

Lemma housemates_first name i t :
  first_match people name i t →
  ∃ mates,
    get_housemates_for fs filename name = Ok mates
    ∧ ∀ n, n ∈ mates ↔
           n ≠ name
           ∧ ∃ p, p ∈ people ∧ full_name p = n
                  ∧ house p = house t ∧ cohort p = cohort t.
Proof.
  intros Hfirst. destruct (lookups_first name i t Hfirst) as [Hc Hh].
  eexists. split.
  { exact (get_housemates_for_roster fs filename people name _ _
             Hroster Hc Hh). }
  intros n. rewrite elem_of_list_to_set, list_elem_of_fmap. split.
  - intros (p & -> & [(Hne & [= Hhouse] & [= Hcohort]) Hin]%list_elem_of_filter).
    eauto 10.
  - intros (Hne & p & Hin & <- & Hhouse & Hcohort). exists p.
    split; [done|]. apply list_elem_of_filter. rewrite Hhouse, Hcohort. done.
Qed.

Lemma housemates_miss name :
  Forall (λ p, full_name p ≠ name) people →
  get_housemates_for fs filename name = Ok ∅.
Proof.
  intros Hmiss. destruct (lookups_miss name Hmiss) as [Hc Hh].
  rewrite (get_housemates_for_roster fs filename people name _ _ Hroster Hc Hh).
  f_equal. apply set_eq. intros n.
  rewrite elem_of_list_to_set, list_elem_of_fmap. split; [|set_solver].
  intros (p & -> & [(_ & Hhouse & _) _]%list_elem_of_filter). done.
Qed.

End roster_queries.

(** X6.  [all_names_by_house] drops, without an error, every record that is
    neither in one of the five houses nor a houseless ghost or instructor:
    the seven lists together hold the names of the other records, each once
    per record. *)
Theorem all_names_by_house_drops (fs : string → option string)
    (filename : string) (people : list person) :
  roster_file fs filename people →
  ∃ lists,
    all_names_by_house fs filename = Ok lists
    ∧ length lists = 7
    ∧ concat lists ≡ₚ full_name <$> filter canonical people.
Proof.
  intros Hroster. eexists.
  split; [by apply (all_names_by_house_roster fs filename people)|].
  split; [done|]. simpl. rewrite !sorted_Permutation, app_nil_r.
  rewrite <- (buckets_Permutation (filter canonical people))
    by (apply Forall_forall; by intros p [? _]%list_elem_of_filter).
  unfold bucket, canonical, canonical_houses.
  rewrite !list_filter_filter_l; [done|intros p; set_solver..].
Qed.

Lemma all_names_by_house_drops_witness :
  ∃ lists,
    all_names_by_house (disk all_label) "cohort_data.txt" = Ok lists
    ∧ length (concat lists) = 2.
Proof.
  destruct (all_names_by_house_drops (disk all_label) "cohort_data.txt"
              all_label_people) as (lists & Hok & _ & Hperm).
  - reflexivity.
  - exists lists. split; [exact Hok|]. rewrite Hperm. reflexivity.
Defined.

(** X7.  When no two records share a full name, being housemates is mutual:
    if [b] is among the housemates of [a], then [a] is among those of [b]. *)
Theorem housemates_symmetric (fs : string → option string)
    (filename : string) (people : list person) (a b : string)
    (mates_a mates_b : gset string) :
  roster_file fs filename people →
  NoDup (full_name <$> people) →
  get_housemates_for fs filename a = Ok mates_a →
  get_housemates_for fs filename b = Ok mates_b →
  b ∈ mates_a → a ∈ mates_b.
Proof.
  intros Hroster Hnodup Ha Hb Hin.
  destruct (first_match_or_miss a people) as [(i & ta & Hfa)|Hmiss].
  2: { rewrite (housemates_miss fs filename people Hroster a Hmiss) in Ha.
       injection Ha as <-. set_solver. }
  destruct (housemates_first fs filename people Hroster a i ta Hfa)
    as (ma & Hma & Hchar_a).
  rewrite Hma in Ha. injection Ha as ->.
  apply Hchar_a in Hin as (Hne & p & Hp & Hpb & Hhouse & Hcohort).
  destruct (first_match_or_miss b people) as [(j & tb & Hfb)|Hmiss].
  2: { by destruct (proj1 (Forall_forall _ _) Hmiss p Hp). }
  assert (tb = p) as -> by (by eapply first_match_unique).
  destruct (housemates_first fs filename people Hroster b j p Hfb)
    as (mb & Hmb & Hchar_b).
  rewrite Hmb in Hb. injection Hb as ->.
  apply Hchar_b. split; [done|]. exists ta.
  split; [by eapply first_match_elem|].
  destruct Hfa as (_ & Hta & _). done.
Qed.

Lemma housemates_symmetric_witness :
  ∃ mates_b,
    get_housemates_for (disk hogwarts) "cohort_data.txt" "Ron Weasley"
    = Ok mates_b
    ∧ "Harry Potter" ∈ mates_b.
Proof.
  exists {["Harry Potter"]}.
  assert (Hron :
    get_housemates_for (disk hogwarts) "cohort_data.txt" "Ron Weasley"
    = Ok {["Harry Potter"]}) by (vm_compute; reflexivity).
  split; [exact Hron|].
  apply (housemates_symmetric (disk hogwarts) "cohort_data.txt" hogwarts_people
           "Harry Potter" "Ron Weasley" {["Ron Weasley"]} {["Harry Potter"]}).
  - reflexivity.
  - by_compute.
  - vm_compute. reflexivity.
  - exact Hron.
  - by_compute.
Defined.

(** X8.  A house that [get_house_for] returns for somebody is, unless it is
    the empty string, one of the houses that [all_houses] returns. *)
Theorem get_house_for_in_all_houses (fs : string → option string)
    (filename : string) (people : list person) (name h : string) :
  roster_file fs filename people →
  get_house_for fs filename name = Ok (Some h) →
  h ≠ "" →
  ∃ houses, all_houses fs filename = Ok houses ∧ h ∈ houses.
Proof.
  intros Hroster Hh Hne. eexists.
  split; [by apply (all_houses_roster fs filename people)|].
  destruct (first_match_or_miss name people) as [(i & t & Hfirst)|Hmiss].
  - destruct (lookups_first fs filename people Hroster name i t Hfirst)
      as [_ Hh'].
    rewrite Hh' in Hh. injection Hh as <-.
    apply elem_of_list_to_set, list_elem_of_fmap. exists t. split; [done|].
    apply list_elem_of_filter. split; [done|]. by eapply first_match_elem.
  - destruct (lookups_miss fs filename people Hroster name Hmiss) as [_ Hh'].
    rewrite Hh' in Hh. discriminate.
Qed.

Lemma get_house_for_in_all_houses_witness :
  ∃ houses,
    all_houses (disk hogwarts) "cohort_data.txt" = Ok houses
    ∧ "Ravenclaw" ∈ houses.
Proof.
  apply (get_house_for_in_all_houses (disk hogwarts) "cohort_data.txt"
           hogwarts_people "Cho Chang").
  - reflexivity.
  - vm_compute. reflexivity.
  - discriminate.
Defined.

(** X9.  When [get_cohort_for] returns a cohort for a name, and that cohort
    is neither "G" nor "I", the name stands in the list of all students, and,
    unless the cohort reads "All", in the list of that cohort. *)
Theorem get_cohort_for_in_students (fs : string → option string)
    (filename : string) (people : list person) (name c : string) :
  roster_file fs filename people →
  get_cohort_for fs filename name = Ok (Some c) →
  c ≠ "G" → c ≠ "I" →
  (∃ everyone,
     students_by_cohort fs filename None = Ok everyone ∧ name ∈ everyone)
  ∧ (c ≠ "All" →
     ∃ names,
       students_by_cohort fs filename (Some c) = Ok names ∧ name ∈ names).
Proof.
  intros Hroster Hc HG HI.
  destruct (first_match_or_miss name people) as [(i & t & Hfirst)|Hmiss].
  2: { destruct (lookups_miss fs filename people Hroster name Hmiss) as [Hc' _].
       rewrite Hc' in Hc. discriminate. }
  destruct (lookups_first fs filename people Hroster name i t Hfirst) as [Hc' _].
  rewrite Hc' in Hc. injection Hc as <-.
  pose proof (first_match_elem people name i t Hfirst) as Hin.
  destruct Hfirst as (_ & Ht & _).
  assert (Hstudent : cohort t ∉ ["I"; "G"]) by set_solver.
  split.
  - eexists. split; [by apply (students_by_cohort_all fs filename people)|].
    rewrite sorted_Permutation. apply list_elem_of_fmap. exists t.
    split; [done|]. by apply list_elem_of_filter.
  - intros Hall. eexists.
    split; [by apply (students_by_cohort_filter fs filename people)|].
    rewrite sorted_Permutation. apply list_elem_of_fmap. exists t.
    split; [done|]. by apply list_elem_of_filter.
Qed.

Lemma get_cohort_for_in_students_witness :
  ∃ names,
    students_by_cohort (disk hogwarts) "cohort_data.txt" (Some "Winter 2016")
    = Ok names
    ∧ "Fred Weasley" ∈ names.
Proof.
  destruct (get_cohort_for_in_students (disk hogwarts) "cohort_data.txt"
              hogwarts_people "Fred Weasley" "Winter 2016") as [_ Hcohort].
  - reflexivity.
  - vm_compute. reflexivity.
  - discriminate.
  - discriminate.
  - apply Hcohort. discriminate.
Defined.

(** X10.  The housemates of a student are students of the same cohort: every
    name in the set of [get_housemates_for] stands in the list that
    [students_by_cohort] returns for the cohort of the queried name. *)
Theorem housemates_in_cohort_list (fs : string → option string)
    (filename : string) (people : list person) (a b c : string)
    (mates : gset string) :
  roster_file fs filename people →
  get_housemates_for fs filename a = Ok mates →
  b ∈ mates →
  get_cohort_for fs filename a = Ok (Some c) →
  c ≠ "All" → c ≠ "G" → c ≠ "I" →
  ∃ names, students_by_cohort fs filename (Some c) = Ok names ∧ b ∈ names.
Proof.
  intros Hroster Hmates Hin Hc Hall HG HI.
  destruct (first_match_or_miss a people) as [(i & t & Hfirst)|Hmiss].
  2: { rewrite (housemates_miss fs filename people Hroster a Hmiss) in Hmates.
       injection Hmates as <-. set_solver. }
  destruct (lookups_first fs filename people Hroster a i t Hfirst) as [Hc' _].
  rewrite Hc' in Hc. injection Hc as <-.
  destruct (housemates_first fs filename people Hroster a i t Hfirst)
    as (mates' & Hmates' & Hchar).
  rewrite Hmates' in Hmates. injection Hmates as ->.
  destruct (proj1 (Hchar b) Hin) as (_ & p & Hp & Hname & _ & Hcohort).
  eexists.
  split; [by apply (students_by_cohort_filter fs filename people)|].
  rewrite sorted_Permutation. apply list_elem_of_fmap. exists p.
  split; [done|]. apply list_elem_of_filter. split; [|done].
  rewrite Hcohort. set_solver.
Qed.

Lemma housemates_in_cohort_list_witness :
  ∃ names,
    students_by_cohort (disk hogwarts) "cohort_data.txt" (Some "Fall 2015")
    = Ok names
    ∧ "Ron Weasley" ∈ names.
Proof.
  apply (housemates_in_cohort_list (disk hogwarts) "cohort_data.txt"
           hogwarts_people "Harry Potter" "Ron Weasley" "Fall 2015"
           {["Ron Weasley"]}).
  - reflexivity.
  - vm_compute. reflexivity.
  - by_compute.
  - vm_compute. reflexivity.
  - discriminate.
  - discriminate.
  - discriminate.
Defined.

(** *** Lines and records *)

Lemma str_app_assoc (s t u : string) : (s +:+ t) +:+ u = s +:+ (t +:+ u).
Proof.
  induction s as [|c s IH]; [done|]. by rewrite !str_app_cons, IH.
Qed.

Lemma list_ascii_of_string_app (s t : string) :
  String.list_ascii_of_string (s +:+ t)
  = String.list_ascii_of_string s ++ String.list_ascii_of_string t.
Proof.
  induction s as [|c s IH]; [done|]. rewrite str_app_cons. simpl. by rewrite IH.
Qed.

Lemma all_space_app (s t : string) :
  all_space s → all_space t → all_space (s +:+ t).
Proof.
  unfold all_space. rewrite list_ascii_of_string_app. apply Forall_app_2.
Qed.

(** X11.  Whitespace at the end of a line (blanks, tabs, a carriage return
    before the line feed) never reaches the record: a line and the same line
    with more whitespace behind it are parsed to the same fields. *)
Theorem trailing_whitespace_ignored (line ws : string) :
  all_space ws → parse_line (line +:+ ws) = parse_line line.
Proof.
  intros Hws. unfold parse_line. f_equal. symmetry.
  apply stripped_of_unique.
  destruct (rstrip_stripped_of line) as [(ws0 & Hline & Hws0) Hlast].
  split; [|done]. exists (ws0 +:+ ws). split; [|by apply all_space_app].
  by rewrite <- str_app_assoc, <- Hline.
Qed.

Lemma trailing_whitespace_ignored_witness :
  parse_line ("Cho|Chang|Ravenclaw|Flitwick|Fall 2015" +:+ String CR (String LF ""))
  = ["Cho"; "Chang"; "Ravenclaw"; "Flitwick"; "Fall 2015"].
Proof.
  rewrite (trailing_whitespace_ignored _ (String CR (String LF ""))).
  - reflexivity.
  - by_compute.
Defined.

(** X12.  A record has one element fewer than its line has fields, and its
    first element, the full name, is the first two fields around a space: the
    full name of a loaded record is never empty. *)
Theorem all_data_record_shape (fs : string → option string)
    (filename text : string) (records : list tuple) :
  fs filename = Some text →
  all_data fs filename = Ok records →
  Forall2 (λ line r,
             length (parse_line line) = S (length r)
             ∧ ∃ n rest,
                 r = n :: rest
                 ∧ n ≠ ""
                 ∧ " "%char ∈ String.list_ascii_of_string n)
    (file_lines text) records.
Proof.
  intros Hfile Hdata. unfold all_data in Hdata.
  rewrite (open_lines_Ok fs filename text Hfile), bind_Ok in Hdata.
  apply mapM_Ok_Forall2, Forall2_fmap_l in Hdata.
  eapply Forall2_impl; [exact Hdata|]. intros line r. simpl.
  destruct (parse_line line) as [|a [|b rest]]; simpl; try done.
  intros [= <-]. split; [done|]. eexists _, _. split; [done|].
  assert (Hin : " "%char ∈ String.list_ascii_of_string (a +:+ " " +:+ b)).
  { rewrite !list_ascii_of_string_app. set_solver. }
  split; [|done]. intros Heq. rewrite Heq in Hin. by apply elem_of_nil in Hin.
Qed.

Lemma all_data_record_shape_witness :
  Forall2 (λ line r, length (parse_line line) = S (length r))
    (file_lines house_only)
    [["Harry Potter"; "Gryffindor"]; ["Moaning Myrtle"; ""]].
Proof.
  eapply Forall2_impl.
  - apply (all_data_record_shape (disk house_only) "cohort_data.txt" house_only);
      reflexivity.
  - intros line r [Hlen _]. exact Hlen.
Defined.

(** *** Duplicated last names *)

(** X13.  The loop of [find_duped_last_names], run on records of two
    elements or more, raises nothing and ends with [seen_names] holding the
    second elements that occur and [dupes] those that occur twice or more.
    ([find_duped_last_names] itself raises before it enters the loop.) *)
Theorem find_duped_last_names_loop_spec (data : list tuple) :
  Forall (λ t, 2 ≤ length t) data →
  ∃ dupes seen_names,
    for_each find_duped_last_names_body (∅, ∅) data = Ok (dupes, seen_names)
    ∧ (∀ x, x ∈ dupes ↔ 2 ≤ second_count data x)
    ∧ (∀ x, x ∈ seen_names ↔ 1 ≤ second_count data x).
Proof.
  intros Hall.
  destruct (find_duped_last_names_loop data ∅ ∅ Hall)
    as (dupes & seen_names & Hloop & Hseen & Hdupes).
  exists dupes, seen_names. split; [done|]. split; intros x.
  - rewrite Hdupes. set_solver.
  - rewrite Hseen. set_solver.
Qed.

Lemma find_duped_last_names_loop_spec_witness :
  ∃ dupes seen_names,
    for_each find_duped_last_names_body (∅, ∅)
      (parse_line <$> file_lines weasleys) = Ok (dupes, seen_names)
    ∧ "Weasley" ∈ dupes.
Proof.
  destruct (find_duped_last_names_loop_spec (parse_line <$> file_lines weasleys))
    as (dupes & seen_names & Hloop & Hdupes & _).
  - by_compute.
  - exists dupes, seen_names. split; [exact Hloop|].
    apply Hdupes. by_compute.
Defined.

(** *** Writing a line and reading it back *)

Lemma last_char_app (s t : string) :
  last_char (s +:+ t) = if decide (t = "") then last_char s else last_char t.
Proof.
  induction s as [|c s IH].
  - rewrite str_app_nil_l. case_decide; [by subst|done].
  - rewrite str_app_cons. simpl. rewrite IH.
    destruct (s +:+ t) as [|d u] eqn:Hst.
    + destruct s, t; try discriminate. by rewrite decide_True.
    + case_decide as Ht.
      * subst t. rewrite str_app_nil_r in Hst. by rewrite Hst.
      * done.
Qed.

Lemma last_char_join (fields : list string) f c :
  last fields = Some f →
  last_char (join "|" fields) = Some c →
  last_char f = Some c ∨ c = "|"%char.
Proof.
  induction fields as [|x l IH]; [done|]. destruct l as [|y l].
  - simpl. intros [= ->]. by left.
  - intros Hlast.
    change (join "|" (x :: y :: l)) with (x +:+ "|" +:+ join "|" (y :: l)).
    change (last (x :: y :: l)) with (last (y :: l)) in Hlast.
    remember (join "|" (y :: l)) as j eqn:Hj.
    rewrite last_char_app. case_decide as Hnil; [by destruct j|].
    change ("|" +:+ j) with (String "|" j).
    destruct j as [|d u].
    + simpl. intros [= <-]. by right.
    + intros Hc. by apply IH.
Qed.

(** X14.  Reading undoes writing: when no field holds a "|" and the last
    field does not end in whitespace, the fields joined by "|" and ended by a
    line feed are parsed back to the very same fields. *)
Theorem parse_line_join (fields : list string) :
  fields ≠ [] →
  Forall (λ f, "|"%char ∉ String.list_ascii_of_string f) fields →
  (∀ f c, last fields = Some f → last_char f = Some c → isspace c = false) →
  parse_line (join "|" fields +:+ String LF "") = fields.
Proof.
  intros Hne Hsep Hlast. unfold parse_line.
  assert (rstrip (join "|" fields +:+ String LF "") = join "|" fields) as ->.
  { symmetry. apply stripped_of_unique. split.
    - exists (String LF ""). split; [done|]. by repeat constructor.
    - intros c Hc. destruct (last fields) as [f|] eqn:Hf.
      + destruct (last_char_join fields f c Hf Hc) as [Hfc| ->]; [|done].
        by apply (Hlast f c).
      + apply last_None in Hf. done. }
  symmetry. by apply fields_of_unique.
Qed.

Lemma parse_line_join_witness :
  parse_line (join "|" ["Moaning"; "Myrtle"; ""; ""; "G"] +:+ String LF "")
  = ["Moaning"; "Myrtle"; ""; ""; "G"].
Proof.
  apply parse_line_join.
  - discriminate.
  - by_compute.
  - intros f c [= <-] [= <-]. reflexivity.
Defined.
